(** * Market-pulse dashboard: indicator pipeline, composite score, risk signals

    A shallow embedding of [src/app.py].  Python floats (and numpy float64
    values) are IEEE-754 binary64 numbers, modelled by Rocq's primitive
    floats; their NaN, infinities and signed zeros behave as in Python.
    A pandas [Series] is an association list from index labels (dates) to
    values, a [DataFrame] is a date index with a map of named columns, and
    a row handed to the per-row functions is a label together with a map
    from column names to values. *)

From Stdlib Require Import ZArith List Bool Lia Floats.
From stdpp Require Import base option list gmap strings.

Set Warnings "-inexact-float".

Local Open Scope Z_scope.

(** ** Python floats *)

Module PyFloat.

(** [math.isnan] / [pandas.isna] on a float: the only value that differs
    from itself. *)
Definition isnan (x : float) : bool := negb (PrimFloat.eqb x x).

(** Python's [a > b] and [a >= b]; the primitive comparisons are [<] and [<=]. *)
Definition gtb (a b : float) : bool := PrimFloat.ltb b a.
Definition geb (a b : float) : bool := PrimFloat.leb b a.

(** Built-in [min(a, b)] and [max(a, b)]: the first argument is kept unless
    the second one compares strictly smaller (resp. greater). *)
Definition py_min (a b : float) : float := if PrimFloat.ltb b a then b else a.
Definition py_max (a b : float) : float := if gtb b a then b else a.

End PyFloat.

Import PyFloat.

Infix ">?" := gtb (at level 70, no associativity) : float_scope.
Infix ">=?" := geb (at level 70, no associativity) : float_scope.

(** ** Library routines whose arithmetic is not reproduced

    The rounding of the windowed means of pandas and TA-Lib, TA-Lib's ATR
    and RSI, numpy's sine and its grid are taken as given: the general
    statements below hold for every implementation of them, and the sample
    runs use the one given further down. *)

Class Numerics : Type := {
  (** the mean [rolling(w).mean()] yields at the last element of the given
      prefix, when the window of [w] values ending there is complete *)
  roll_mean : nat -> list float -> float;
  (** the same for [talib.SMA] *)
  sma_value : nat -> list float -> float;
  (** [talib.ATR(high, low, close, timeperiod)] *)
  talib_ATR : list float -> list float -> list float -> nat -> list float;
  (** [talib.RSI(close, timeperiod)] *)
  talib_RSI : list float -> nat -> list float;
  (** [np.sin] on one value *)
  np_sin : float -> float;
  (** [np.linspace(start, stop, num)] *)
  np_linspace : float -> float -> nat -> list float
}.

(** ** pandas values *)

Module Pandas.

Local Open Scope float_scope.

(** A [Series]: index labels (trading dates, as day numbers) with their
    values, in index order. *)
Definition Series : Type := list (Z * float).

(** A row of a table as the per-row functions receive it: [row.name] is the
    row's index label, and the values are keyed by column name. *)
Record Row : Type := mkRow { name : Z; values : gmap string float }.

(** A [DataFrame]: the date index and the named columns. *)
Record DataFrame : Type :=
  mkFrame { index : list Z; columns : gmap string (list float) }.

Fixpoint series_lookup (s : Series) (key : Z) : option float :=
  match s with
  | [] => None
  | (d, v) :: s' => if Z.eqb d key then Some v else series_lookup s' key
  end.

(** [s.get(key, default)] *)
Definition series_get (s : Series) (key : Z) (dflt : float) : float :=
  default dflt (series_lookup s key).

(** [row.get(col, default)], [col in row] and [row[col]] (the last one
    raises [KeyError] on a missing column: [None]). *)
Definition row_get (row : Row) (col : string) (dflt : float) : float :=
  default dflt (values row !! col).

Definition row_has (row : Row) (col : string) : bool :=
  match values row !! col with Some _ => true | None => false end.

Definition row_item (row : Row) (col : string) : option float :=
  values row !! col.

(** *** Series operations *)

(** The value a series contributes at a label: its observation there, NaN
    when it has none. *)
Definition observed (s : Series) (d : Z) : float :=
  default nan (series_lookup s d).

(** [s.reindex(idx)] *)
Definition reindex (s : Series) (idx : list Z) : Series :=
  map (fun d => (d, observed s d)) idx.

(** Forward fill of a column of values: a NaN takes the last value that
    was not NaN before it, and stays NaN when there is none. *)
Fixpoint ffill_from (last : float) (vs : list float) : list float :=
  match vs with
  | [] => []
  | v :: vs' =>
      let v' := if isnan v then last else v in
      v' :: ffill_from v' vs'
  end.

Definition ffill_values (vs : list float) : list float := ffill_from nan vs.

(** [s.ffill()] *)
Definition ffill (s : Series) : Series := zip (s.*1) (ffill_values (s.*2)).

(** The [w] values ending at position [i]. *)
Definition window (w i : nat) (xs : list float) : list float :=
  drop (S i - w) (take (S i) xs).

(** [xs.rolling(w).mean()]: NaN until [w] observations are there and
    whenever the window holds a NaN ([min_periods] is the window length). *)
Definition rolling_mean `{Numerics} (w : nat) (xs : list float) : list float :=
  imap (fun i _ =>
          if (S i <? w)%nat || existsb isnan (window w i xs) then nan
          else roll_mean w (take (S i) xs)) xs.

(** [xs.shift(n)] *)
Definition shift (n : nat) (xs : list float) : list float :=
  take (length xs) (replicate n nan ++ xs).

(** [xs.pct_change(n)]: missing values are forward-filled first (the
    default [fill_method]), then [x_t / x_(t-n) - 1]. *)
Definition pct_change (n : nat) (xs : list float) : list float :=
  let data := ffill_values xs in
  zip_with (fun a b => a / b - 1) data (shift n data).

(** [xs.tail(n)] *)
Definition tail (n : nat) (xs : list float) : list float :=
  drop (length xs - n) xs.

(** [xs.max()]: the largest value that is not NaN, NaN when there is none. *)
Definition series_max (xs : list float) : float :=
  fold_left (fun acc x =>
               if isnan x then acc
               else if isnan acc then x
               else if acc <? x then x else acc) xs nan.

(** *** Table operations *)

(** [df[col]]: [None] is the [KeyError]. *)
Definition df_col (df : DataFrame) (col : string) : option (list float) :=
  columns df !! col.

(** [df[col] = values], the values being in the order of the index. *)
Definition set_col (df : DataFrame) (col : string) (vs : list float) : DataFrame :=
  mkFrame (index df) (<[col := vs]> (columns df)).

(** [df[col] = series]: the series is aligned on the index of the table,
    with NaN where it has no observation; nothing is filled. *)
Definition set_col_series (df : DataFrame) (col : string) (s : Series) : DataFrame :=
  set_col df col (map (observed s) (index df)).

(** The series [df[col]] with its labels. *)
Definition col_series (df : DataFrame) (col : string) : option Series :=
  vs ← df_col df col; Some (zip (index df) vs).

(** [df.empty]: no rows or no columns. *)
Definition df_empty (df : DataFrame) : bool :=
  match index df with
  | [] => true
  | _ => bool_decide (columns df = ∅)
  end.

(** [df.iloc[i]]: the row at a position. *)
Definition df_row (df : DataFrame) (i : nat) : option Row :=
  d ← index df !! i;
  Some (mkRow d (omap (fun col : list float => col !! i) (columns df))).

(** One cell by position. *)
Definition cell (df : DataFrame) (i : nat) (col : string) : option float :=
  vs ← df_col df col; vs !! i.

Fixpoint find_label (idx : list Z) (d : Z) : option nat :=
  match idx with
  | [] => None
  | d' :: idx' => if Z.eqb d' d then Some O else S <$> find_label idx' d
  end.

Fixpoint count_label (idx : list Z) (d : Z) : nat :=
  match idx with
  | [] => O
  | d' :: idx' => (if Z.eqb d' d then 1 else 0) + count_label idx' d
  end.

(** [idx.get_loc(d)] as the source uses it, a position to compare with 0:
    [KeyError] when the label is absent, and no integer position when it
    occurs more than once. *)
Definition get_loc (idx : list Z) (d : Z) : option nat :=
  if Nat.eqb (count_label idx d) 1 then find_label idx d else None.

(** [df.loc[d, col]] as a scalar. *)
Definition df_loc (df : DataFrame) (d : Z) (col : string) : option float :=
  i ← get_loc (index df) d; cell df i col.

(** [df.apply(f, axis=1)]: [f] on every row, in index order. *)
Definition df_apply {A} (f : Row -> A) (df : DataFrame) : list A :=
  omap (fun i => f <$> df_row df i) (seq 0 (length (index df))).

End Pandas.

Import Pandas.

(** ** The composite score model *)

Section CompositeScore.

Local Open Scope float_scope.

(** Module-level series read by the per-row functions. *)
Variable vix_series : Series.
Variable pcr_series : Series.

(** The values the seven rules read, with the defaults of the [get] calls. *)
Definition dev_avg (row : Row) : float :=
  (row_get row "Dev_50" 0 + row_get row "Dev_100" 0 + row_get row "Dev_200" 0) / 3.
Definition vix_val (row : Row) : float := series_get vix_series (name row) 20.
Definition breadth_val (row : Row) : float := row_get row "Breadth" 50.
Definition spread_val (row : Row) : float := row_get row "Junk_Spread" 0.
Definition yield_val (row : Row) : float := row_get row "Yield_Curve" 0.
Definition pcr_val (row : Row) : float := series_get pcr_series (name row) 1.0.
Definition mom_val (row : Row) : float := row_get row "Momentum_5D" 0.

(** The seven updates of [score], in the order of the source. *)
Definition score_deviation (score dev : float) : float :=
  if (-2 <? dev) && (dev <? 5) then score + 10
  else if (dev <? -10) || (dev >? 15) then score - 15
  else score + (5 - abs dev / 5).

Definition score_vix (score vix : float) : float :=
  if vix <? 16 then score + 10
  else if vix >? 30 then score - 10
  else score + (30 - vix) / 1.5.

Definition score_breadth (score breadth : float) : float :=
  if breadth >? 70 then score + 7.5
  else if breadth <? 30 then score - 7.5
  else score + (breadth - 50) / 4.

Definition score_spread (score spread : float) : float :=
  if spread <? -2 then score + 7.5
  else if spread >? 5 then score - 7.5
  else score - spread * 1.5.

Definition score_yield (score yld : float) : float :=
  if yld >? 0.1 then score + 7.5
  else if yld <? -0.2 then score - 7.5
  else score + yld * 30.

Definition score_pcr (score pcr : float) : float :=
  if pcr <? 0.8 then score - 5
  else if pcr >? 1.2 then score + 5
  else score + (1.0 - pcr) * 10.

Definition score_momentum (score mom : float) : float :=
  if mom >? 3 then score + 2.5
  else if mom <? -3 then score - 2.5
  else score + mom / 1.5.

(** The score before the final clamp. *)
Definition raw_score (row : Row) : float :=
  let score := 50 in
  let score := score_deviation score (dev_avg row) in
  let score := score_vix score (vix_val row) in
  let score := score_breadth score (breadth_val row) in
  let score := score_spread score (spread_val row) in
  let score := score_yield score (yield_val row) in
  let score := score_pcr score (pcr_val row) in
  let score := score_momentum score (mom_val row) in
  score.

(** [return max(0, min(100, score))] *)
Definition calculate_composite_score (row : Row) : float :=
  py_max 0 (py_min 100 (raw_score row)).

End CompositeScore.

(** The row fields the score reads through [row.get]. *)
Definition consumed_fields : list string :=
  ["Dev_50"; "Dev_100"; "Dev_200"; "Breadth"; "Junk_Spread"; "Yield_Curve";
   "Momentum_5D"].

(** ** Indicator and proxy calculators *)

Section Indicators.

Context `{Numerics}.
Local Open Scope float_scope.

(** [talib.SMA(real, timeperiod)]: the output has the length of the input
    and is NaN over the lookback, the first [timeperiod - 1] positions. *)
Definition talib_SMA (real : list float) (timeperiod : nat) : list float :=
  imap (fun i _ =>
          if (S i <? timeperiod)%nat then nan
          else sma_value timeperiod (take (S i) real)) real.

(** [(close / ma - 1) * 100], value by value *)
Definition deviation (close ma : list float) : list float :=
  zip_with (fun c m => (c / m - 1) * 100) close ma.

Definition calculate_technical_indicators (df : DataFrame) : option DataFrame :=
  close ← df_col df "Close";
  let ma_50 := talib_SMA close 50 in
  let ma_100 := talib_SMA close 100 in
  let ma_200 := talib_SMA close 200 in
  let df := set_col df "MA_50" ma_50 in
  let df := set_col df "MA_100" ma_100 in
  let df := set_col df "MA_200" ma_200 in
  let df := set_col df "Dev_50" (deviation close ma_50) in
  let df := set_col df "Dev_100" (deviation close ma_100) in
  let df := set_col df "Dev_200" (deviation close ma_200) in
  let df := set_col df "Momentum_5D" (map (fun r => r * 100) (pct_change 5 close)) in
  high ← df_col df "High";
  low ← df_col df "Low";
  let df := set_col df "ATR" (talib_ATR high low close 14) in
  let df := set_col df "RSI" (talib_RSI close 14) in
  Some df.

(** [(flag).astype(int) * 100], the integers 0 and 100 kept as floats, as
    they are once the column sits next to missing values. *)
Definition flag_times_100 (flag : bool) : float := (if flag then 1 else 0) * 100.

Definition calculate_market_breadth (df : DataFrame) : option DataFrame :=
  close ← df_col df "Close";
  Some (set_col df "Breadth_Proxy"
          (zip_with (fun c m => flag_times_100 (c >? m)) close (rolling_mean 50 close))).

(** Insertion of a label in an increasing index, and the union of two
    indexes: the index itself when both are equal, the sorted union
    otherwise. *)
Fixpoint insert_label (d : Z) (idx : list Z) : list Z :=
  match idx with
  | [] => [d]
  | d' :: idx' =>
      if Z.ltb d d' then d :: idx
      else if Z.eqb d d' then idx
      else d' :: insert_label d idx'
  end.

Definition union_index (a b : list Z) : list Z :=
  if decide (a = b) then a else foldr insert_label [] (a ++ b).

(** [x / y] on two series: aligned on the union of their indexes. *)
Definition series_div (x y : Series) : Series :=
  map (fun d => (d, observed x d / observed y d)) (union_index (x.*1) (y.*1)).

Definition calculate_bond_spread (hyg_df tlt_df : DataFrame) : option Series :=
  hyg_close ← col_series hyg_df "Close";
  tlt_close ← col_series tlt_df "Close";
  let ratio := series_div hyg_close tlt_close in
  Some (zip (ratio.*1) (map (fun r => r * 100) (pct_change 5 (ratio.*2)))).

Definition np_pi : float := 3.141592653589793.

(** The synthetic curve over the dates of the primary table. *)
Definition calculate_yield_curve (primary_df : DataFrame) : Series :=
  let dates := index primary_df in
  zip dates
    (map (fun x => np_sin x * 0.5 + 0.2) (np_linspace 0 (4 * np_pi) (length dates))).

(** *** Acquisition gate and the computation block *)

Record MarketData : Type := mkData {
  primary : DataFrame; vix : DataFrame; hyg : DataFrame; tlt : DataFrame;
  spy : DataFrame; pcr_estimate : DataFrame }.

(** [fetch_all_data], on the five tables the downloads delivered.  [None]
    is the reported failure: the caller stops the run on it. *)
Definition fetch_all_data
    (ticker_data vix_data hyg_data tlt_data spy_data : DataFrame) : option MarketData :=
  if df_empty ticker_data then None
  else
    vix_close ← df_col vix_data "Close";
    let pcr := zip_with (fun c m => c / m) vix_close (rolling_mean 20 vix_close) in
    Some (mkData ticker_data vix_data hyg_data tlt_data spy_data
            (mkFrame (index vix_data) {[ "PCR_Estimate" := pcr ]})).

Record Tables : Type := mkTables {
  t_primary : DataFrame; t_vix : Series; t_pcr : Series }.

Definition build_tables (data : MarketData) : option Tables :=
  primary_df ← calculate_technical_indicators (primary data);
  spy_df ← calculate_market_breadth (spy data);
  breadth ← col_series spy_df "Breadth_Proxy";
  let primary_df := set_col_series primary_df "Breadth" breadth in
  spread ← calculate_bond_spread (hyg data) (tlt data);
  let primary_df := set_col_series primary_df "Junk_Spread" spread in
  let primary_df :=
    set_col_series primary_df "Yield_Curve" (calculate_yield_curve primary_df) in
  let common_index := index primary_df in
  vix_close ← col_series (vix data) "Close";
  let vix_series := ffill (reindex vix_close common_index) in
  pcr ← col_series (pcr_estimate data) "PCR_Estimate";
  let pcr_series := ffill (reindex pcr common_index) in
  Some (mkTables primary_df vix_series pcr_series).

(** [primary_df.apply(calculate_composite_score, axis=1)] *)
Definition composite_scores (t : Tables) : list float :=
  df_apply (calculate_composite_score (t_vix t) (t_pcr t)) (t_primary t).

End Indicators.

(** ** The risk signal detector *)

Inductive severity : Type := low | medium | high.

Inductive risk_title : Type :=
  | ExtremeVolatility | ElevatedVolatility | BreadthExhaustion | DeathCross
  | ExtremeBearish | ExtremeBullish | SevereOverbought | SevereOversold.

(** One entry of the list [risks]: the title, the number its description
    prints (when it prints one) and the level. *)
Record RiskSignal : Type :=
  mkSignal { title : risk_title; shown : option float; level : severity }.

Definition title_eqb (a b : risk_title) : bool :=
  match a, b with
  | ExtremeVolatility, ExtremeVolatility | ElevatedVolatility, ElevatedVolatility
  | BreadthExhaustion, BreadthExhaustion | DeathCross, DeathCross
  | ExtremeBearish, ExtremeBearish | ExtremeBullish, ExtremeBullish
  | SevereOverbought, SevereOverbought | SevereOversold, SevereOversold => true
  | _, _ => false
  end.

(** Whether a list of signals holds one with the given title. *)
Definition emits (t : risk_title) (risks : list RiskSignal) : bool :=
  existsb (fun s => title_eqb (title s) t) risks.

Section RiskSignals.

Local Open Scope float_scope.

(** Module-level tables read by the detector. *)
Variable primary_df : DataFrame.
Variable vix_series : Series.
Variable pcr_series : Series.

(** Rule 1: extreme volatility *)
Definition rule_volatility (row : Row) (risks : list RiskSignal) : list RiskSignal :=
  let vix_val := series_get vix_series (name row) 20 in
  if vix_val >? 35 then risks ++ [mkSignal ExtremeVolatility (Some vix_val) high]
  else if vix_val >? 25 then risks ++ [mkSignal ElevatedVolatility (Some vix_val) medium]
  else risks.

(** Rule 2: breadth exhaustion, on the latest data point only *)
Definition rule_breadth (row : Row) (risks : list RiskSignal) : option (list RiskSignal) :=
  latest ← last (index primary_df);
  if Z.eqb (name row) latest then
    closes ← df_col primary_df "Close";
    let recent_high := series_max (tail 20 closes) in
    breadths ← df_col primary_df "Breadth";
    let recent_breadth_high := series_max (tail 20 breadths) in
    current_price ← row_item row "Close";
    current_breadth ← row_item row "Breadth";
    if (current_price >=? recent_high * 0.99)
       && (current_breadth <? recent_breadth_high * 0.95)
    then Some (risks ++ [mkSignal BreadthExhaustion None medium])
    else Some risks
  else Some risks.

(** Rule 3: death cross of the moving averages *)
Definition rule_death_cross (row : Row) (risks : list RiskSignal) : option (list RiskSignal) :=
  if row_has row "MA_50" && row_has row "MA_200" then
    ma_50 ← row_item row "MA_50";
    ma_200 ← row_item row "MA_200";
    if ma_50 <? ma_200 then
      loc ← get_loc (index primary_df) (name row);
      if (0 <? loc)%nat then
        prev_idx ← index primary_df !! (loc - 1)%nat;
        prev_50 ← df_loc primary_df prev_idx "MA_50";
        prev_200 ← df_loc primary_df prev_idx "MA_200";
        if prev_50 >=? prev_200
        then Some (risks ++ [mkSignal DeathCross None high])
        else Some risks
      else Some risks
    else Some risks
  else Some risks.

(** Rule 4: extreme values of the put/call estimate *)
Definition rule_pcr (row : Row) (risks : list RiskSignal) : list RiskSignal :=
  let pcr_val := series_get pcr_series (name row) 1.0 in
  if pcr_val >? 1.3 then risks ++ [mkSignal ExtremeBearish (Some pcr_val) medium]
  else if pcr_val <? 0.6 then risks ++ [mkSignal ExtremeBullish (Some pcr_val) medium]
  else risks.

(** Rule 5: price far from the 200-day average *)
Definition rule_deviation (row : Row) (risks : list RiskSignal) : list RiskSignal :=
  let dev_200 := row_get row "Dev_200" 0 in
  if dev_200 >? 15 then risks ++ [mkSignal SevereOverbought (Some dev_200) medium]
  else if dev_200 <? -15 then risks ++ [mkSignal SevereOversold (Some dev_200) low]
  else risks.

Definition identify_risk_signals (row : Row) : option (list RiskSignal) :=
  let risks := [] in
  let risks := rule_volatility row risks in
  risks ← rule_breadth row risks;
  risks ← rule_death_cross row risks;
  let risks := rule_pcr row risks in
  let risks := rule_deviation row risks in
  Some risks.

End RiskSignals.

(** ** The figures on top of the dashboard *)

(** [risk_title] has decidable equality. *)
#[local] Instance risk_title_eq_dec : EqDecision risk_title.
Proof. solve_decision. Defined.

(** The order in which the five rules append their signals. *)
Definition rule_order : list risk_title :=
  [ExtremeVolatility; ElevatedVolatility; BreadthExhaustion; DeathCross;
   ExtremeBearish; ExtremeBullish; SevereOverbought; SevereOversold].

(** [primary_df['Composite_Score'] = primary_df.apply(...)]: the table the
    rest of the script reads. *)
Definition with_scores (t : Tables) : DataFrame :=
  set_col (t_primary t) "Composite_Score" (composite_scores t).

(** [df.iloc[-k]]: the k-th row from the end, [IndexError] ([None]) when
    the table has fewer than [k] rows. *)
Definition iloc_back (df : DataFrame) (k : nat) : option Row :=
  if (0 <? k)%nat && (k <=? length (index df))%nat
  then df_row df (length (index df) - k)
  else None.

(** The four figures of the top cards: latest score, its change against the
    row before, latest close, latest volatility value. *)
Definition top_metrics (t : Tables) : option (float * float * float * float) :=
  let primary_df := with_scores t in
  latest ← iloc_back primary_df 1;
  latest_score ← row_item latest "Composite_Score";
  previous ← iloc_back primary_df 2;
  previous_score ← row_item previous "Composite_Score";
  let score_change := (latest_score - previous_score)%float in
  close ← row_item latest "Close";
  vix_val ← last (t_vix t).*2;
  Some (latest_score, score_change, close, vix_val).

(** [latest_risks = identify_risk_signals(primary_df.iloc[-1])] *)
Definition latest_risks (t : Tables) : option (list RiskSignal) :=
  latest ← iloc_back (with_scores t) 1;
  identify_risk_signals (with_scores t) (t_vix t) (t_pcr t) latest.

(** ** Readings used in the statements *)

(** Dates in strictly increasing order. *)
Fixpoint increasing (idx : list Z) : bool :=
  match idx with
  | [] => true
  | d :: idx' =>
      match idx' with
      | [] => true
      | d' :: _ => Z.ltb d d' && increasing idx'
      end
  end.

(** The reading of forward fill on the series itself: the last observation
    that is not NaN among those dated at or before [d]. *)
Definition most_recent_prior (aux : Series) (d : Z) : option float :=
  last (filter (fun p => Z.le p.1 d /\ isnan p.2 = false) aux).*2.

(** The two conditions of the death cross, read off the table: the averages
    of row [i] and those of the row before it. *)
Definition death_cross_at (df : DataFrame) (i : nat) : bool :=
  match cell df i "MA_50", cell df i "MA_200" with
  | Some ma_50, Some ma_200 =>
      (ma_50 <? ma_200)%float && (0 <? i)%nat &&
      match cell df (i - 1) "MA_50", cell df (i - 1) "MA_200" with
      | Some prev_50, Some prev_200 => (prev_50 >=? prev_200)%float
      | _, _ => false
      end
  | _, _ => false
  end.

(** The reading of "the default is substituted for an undefined field": the
    fields and observations that are NaN are taken out, so that every [get]
    falls back on its default. *)
Definition drop_undefined (row : Row) : Row :=
  mkRow (name row) (filter (fun kv => isnan kv.2 = false) (values row)).

Definition dropna (s : Series) : Series :=
  filter (fun p => isnan p.2 = false) s.

(** TA-Lib's lookback for ATR and RSI, on price columns of one length: the
    first [timeperiod] outputs are NaN. *)
Definition talib_lookback `{Numerics} : Prop :=
  forall (high low close : list float) (n i : nat),
    length high = length close -> length low = length close ->
    (i < n)%nat -> (i < length close)%nat ->
    talib_ATR high low close n !! i = Some nan /\
    talib_RSI close n !! i = Some nan.

(** One step of the running maximum of [series_max]. *)
Definition max_step (acc x : float) : float :=
  (if isnan x then acc else if isnan acc then x else if acc <? x then x else acc)%float.

(** The columns [calculate_technical_indicators] writes, and those among
    them whose values the model determines. *)
Definition derived_columns : list string :=
  ["MA_50"; "MA_100"; "MA_200"; "Dev_50"; "Dev_100"; "Dev_200"; "Momentum_5D";
   "ATR"; "RSI"].

Definition windowed_columns : list string :=
  ["MA_50"; "MA_100"; "MA_200"; "Dev_50"; "Dev_100"; "Dev_200"; "Momentum_5D"].

(** ** One implementation of the library routines

    Used to run the functions on concrete tables: plain left-to-right means
    over the window; ATR and RSI as they are on inputs shorter than their
    lookback, all NaN; the grid and the sine as they are at the first grid
    point, where both are 0. *)

Definition plain_mean (w : nat) (prefix : list float) : float :=
  (fold_left PrimFloat.add (drop (length prefix - w) prefix) 0
   / PrimFloat.of_uint63 (Uint63.of_Z (Z.of_nat w)))%float.

#[local] Instance sample_numerics : Numerics := {|
  roll_mean := plain_mean;
  sma_value := plain_mean;
  talib_ATR := fun high _ _ _ => replicate (length high) nan;
  talib_RSI := fun close _ => replicate (length close) nan;
  np_sin := fun x => x;
  np_linspace := fun start _ num => replicate num start
|}.

(** ** Sample tables *)

(** Three trading days of a table with the price columns. *)
Definition three_days : DataFrame :=
  mkFrame [1; 2; 3]
    (list_to_map
       [("Open", [100; 101; 102]); ("High", [101; 102; 103]);
        ("Low", [99; 100; 101]); ("Close", [100; 101; 102]);
        ("Volume", [1000; 1000; 1000])])%float.

(** Volatility closes for the three days. *)
Definition calm_vix : DataFrame :=
  mkFrame [1; 2; 3] {[ "Close" := [18; 19; 20]%float ]}.

(** Twenty days: the 50-day average is above the 200-day average on days
    1-9 and below it on days 10-20; the close of day 20 is 0.995 times the
    highest close and its breadth half the highest breadth. *)
Definition scenario_days : DataFrame :=
  mkFrame (seqZ 1 20)
    (list_to_map
       [("Close", replicate 19 200 ++ [199]);
        ("Breadth", replicate 19 100 ++ [50]);
        ("MA_50", replicate 9 10 ++ replicate 11 9);
        ("MA_200", replicate 20 9.5)])%float.

(** What [fetch_all_data] hands over for the three days: the put/call
    estimate has no 20-day window yet. *)
Definition three_day_data : MarketData :=
  mkData three_days calm_vix three_days three_days three_days
    (mkFrame [1; 2; 3] {[ "PCR_Estimate" := [nan; nan; nan]%float ]}).

(** The last row of the twenty days, and series for its date: a
    volatility value of 40 with a put/call estimate of 1.5, and undefined
    ones. *)
Definition scenario_last_row : Row :=
  mkRow 20 (list_to_map
              [("Close", 199); ("Breadth", 50); ("MA_50", 9); ("MA_200", 9.5)])%float.
Definition stressed_vix : Series := [(20, 40%float)].
Definition bearish_pcr : Series := [(20, 1.5%float)].
Definition undefined_on_day_20 : Series := [(20, nan)].

(** A row of some other table: its date is not among the twenty days. *)
Definition foreign_row : Row :=
  mkRow 99 (list_to_map [("MA_50", 9); ("MA_200", 9.5)])%float.

(** A table with the price columns and no row. *)
Definition empty_prices : DataFrame :=
  mkFrame []
    (list_to_map
       [("Open", []); ("High", []); ("Low", []); ("Close", []); ("Volume", [])]).

(** A single trading day. *)
Definition one_day : DataFrame :=
  mkFrame [1]
    (list_to_map
       [("Open", [100]); ("High", [101]); ("Low", [99]); ("Close", [100]);
        ("Volume", [1000])])%float.

(** What [fetch_all_data] hands over for the single day. *)
Definition one_day_data : MarketData :=
  mkData one_day (mkFrame [1] {[ "Close" := [18]%float ]}) one_day one_day one_day
    (mkFrame [1] {[ "PCR_Estimate" := [nan] ]}).

(** A row carrying the neutral value in every field, and the two series
    with the neutral value at its date. *)
Definition neutral_row : Row :=
  mkRow 7 (list_to_map
             [("Dev_50", 0); ("Dev_100", 0); ("Dev_200", 0); ("Breadth", 50);
              ("Junk_Spread", 0); ("Yield_Curve", 0); ("Momentum_5D", 0)])%float.
Definition neutral_vix : Series := [(7, 20%float)].
Definition neutral_pcr : Series := [(7, 1.0%float)].

(** A row without any of the fields, for which every [get] falls back on
    its default. *)
Definition bare_row : Row := mkRow 7 ∅.

(** * Properties *)

(** ** Facts on binary64 arithmetic used below *)

Section FloatFacts.

Local Open Scope float_scope.

Lemma Prim2SF_nan : Prim2SF nan = S754_nan.
Proof. reflexivity. Qed.

Lemma Zcompare_core_refl e : IntDef.Z.compare e e = Eq.
Proof. exact (Z.compare_refl e). Qed.

Lemma Zcompare_core_antisym a b :
  IntDef.Z.compare b a = CompOpp (IntDef.Z.compare a b).
Proof. exact (Z.compare_antisym a b). Qed.

Lemma Pcompare_core_refl m : PosDef.Pos.compare_cont Eq m m = Eq.
Proof. exact (Pos.compare_cont_refl m Eq). Qed.

Lemma Pcompare_core_antisym a b :
  PosDef.Pos.compare_cont Eq b a = CompOpp (PosDef.Pos.compare_cont Eq a b).
Proof. exact (Pos.compare_antisym a b). Qed.

Lemma SFcompare_refl_not_nan (s : spec_float) :
  s <> S754_nan -> SFcompare s s = Some Eq.
Proof.
  destruct s as [[]|[]| |[] m e]; simpl; try congruence; intros _;
    now rewrite Zcompare_core_refl, Pcompare_core_refl.
Qed.

Lemma isnan_eq (x : float) : isnan x = true -> x = nan.
Proof.
  unfold isnan. rewrite FloatAxioms.eqb_spec. intros H.
  apply Prim2SF_inj. rewrite Prim2SF_nan.
  destruct (Prim2SF x) eqn:E; try reflexivity;
    unfold SFeqb in H; rewrite SFcompare_refl_not_nan in H by discriminate;
    discriminate.
Qed.

Lemma isnan_nan : isnan nan = true.
Proof. reflexivity. Qed.

Lemma add_nan_l x : nan + x = nan.
Proof. apply Prim2SF_inj. rewrite add_spec, Prim2SF_nan. reflexivity. Qed.

Lemma add_nan_r x : x + nan = nan.
Proof.
  apply Prim2SF_inj. rewrite add_spec, Prim2SF_nan.
  now destruct (Prim2SF x).
Qed.

Lemma sub_nan_l x : nan - x = nan.
Proof. apply Prim2SF_inj. rewrite sub_spec, Prim2SF_nan. reflexivity. Qed.

Lemma sub_nan_r x : x - nan = nan.
Proof.
  apply Prim2SF_inj. rewrite sub_spec, Prim2SF_nan.
  now destruct (Prim2SF x).
Qed.

Lemma mul_nan_l x : nan * x = nan.
Proof. apply Prim2SF_inj. rewrite mul_spec, Prim2SF_nan. reflexivity. Qed.

Lemma mul_nan_r x : x * nan = nan.
Proof.
  apply Prim2SF_inj. rewrite mul_spec, Prim2SF_nan.
  now destruct (Prim2SF x).
Qed.

Lemma div_nan_l x : nan / x = nan.
Proof. apply Prim2SF_inj. rewrite div_spec, Prim2SF_nan. reflexivity. Qed.

Lemma div_nan_r x : x / nan = nan.
Proof.
  apply Prim2SF_inj. rewrite div_spec, Prim2SF_nan.
  now destruct (Prim2SF x).
Qed.

Lemma abs_nan : abs nan = nan.
Proof. reflexivity. Qed.

Lemma ltb_nan_l x : (nan <? x) = false.
Proof. rewrite FloatAxioms.ltb_spec, Prim2SF_nan. reflexivity. Qed.

Lemma ltb_nan_r x : (x <? nan) = false.
Proof. rewrite FloatAxioms.ltb_spec, Prim2SF_nan. unfold SFltb. now destruct (Prim2SF x). Qed.

Lemma leb_nan_l x : (nan <=? x) = false.
Proof. rewrite FloatAxioms.leb_spec, Prim2SF_nan. reflexivity. Qed.

Lemma leb_nan_r x : (x <=? nan) = false.
Proof. rewrite FloatAxioms.leb_spec, Prim2SF_nan. unfold SFleb. now destruct (Prim2SF x). Qed.

Lemma ltb_leb x y : (x <? y) = true -> (x <=? y) = true.
Proof.
  rewrite FloatAxioms.ltb_spec, FloatAxioms.leb_spec. unfold SFltb, SFleb.
  now destruct (SFcompare _ _) as [[]|].
Qed.

Lemma SFcompare_Lt_swap (a b : spec_float) :
  SFcompare a b = Some Lt -> SFcompare b a = Some Gt.
Proof.
  destruct a as [[]|[]| |[] m1 e1], b as [[]|[]| |[] m2 e2]; simpl;
    try congruence;
    rewrite (Zcompare_core_antisym e1 e2), (Pcompare_core_antisym m1 m2);
    destruct (IntDef.Z.compare e1 e2); simpl; try congruence;
    destruct (PosDef.Pos.compare_cont Eq m1 m2); simpl; congruence.
Qed.

Lemma SFltb_trans (x y z : spec_float) :
  SFltb x y = true -> SFltb y z = true -> SFltb x z = true.
Proof.
  unfold SFltb.
  destruct x as [[]|[]| |[] m1 e1], y as [[]|[]| |[] m2 e2],
           z as [[]|[]| |[] m3 e3];
    simpl; try discriminate; try reflexivity;
    change IntDef.Z.compare with Z.compare;
    change (PosDef.Pos.compare_cont Eq) with Pos.compare;
    destruct (Z.compare_spec e1 e2); try discriminate;
    destruct (Z.compare_spec e2 e3); try discriminate;
    destruct (Z.compare_spec e1 e3); try discriminate; try reflexivity;
    try lia; subst;
    destruct (Pos.compare_spec m1 m2); try discriminate;
    destruct (Pos.compare_spec m2 m3); try discriminate;
    destruct (Pos.compare_spec m1 m3); try discriminate; try reflexivity;
    simpl; intros; try lia; try discriminate.
Qed.

Lemma ltb_trans x y z : (x <? y) = true -> (y <? z) = true -> (x <? z) = true.
Proof. rewrite !FloatAxioms.ltb_spec. apply SFltb_trans. Qed.

(** A strict [x < y] excludes [x >= y]. *)
Lemma ltb_not_geb x y : (x <? y) = true -> (x >=? y) = false.
Proof.
  unfold geb. rewrite FloatAxioms.ltb_spec, FloatAxioms.leb_spec. unfold SFltb, SFleb.
  destruct (SFcompare (Prim2SF x) (Prim2SF y)) as [[]|] eqn:E; try discriminate.
  intros _. now rewrite (SFcompare_Lt_swap _ _ E).
Qed.

End FloatFacts.

(** ** More on float equality and the clamp *)

Section ClampFacts.

Local Open Scope float_scope.

(** A value equal to zero is one of the two zeros. *)
Lemma eqb_zero_cases x : (x =? 0) = true -> x = 0 \/ x = -0.
Proof.
  rewrite FloatAxioms.eqb_spec. intros H.
  rewrite <- (SF2Prim_Prim2SF x).
  destruct (Prim2SF x) as [[]|[]| |[] m e]; try discriminate H.
  - now right.
  - now left.
Qed.

(** A value equal to a finite non-zero number is that number. *)
Lemma eqb_finite_eq x y s m e :
  Prim2SF y = S754_finite s m e -> (x =? y) = true -> x = y.
Proof.
  intros Hy. rewrite FloatAxioms.eqb_spec, Hy. intros H.
  apply Prim2SF_inj. rewrite Hy.
  destruct (Prim2SF x) as [[]|[]| |s' m' e']; try discriminate H;
    try (destruct s; discriminate H).
  unfold SFeqb in H. simpl in H.
  destruct s', s; try discriminate H;
    destruct (IntDef.Z.compare e' e) eqn:Ee; try discriminate H;
    apply Z.compare_eq in Ee; subst e';
    destruct (PosDef.Pos.compare_cont Eq m' m) eqn:Em; try discriminate H;
    apply Pcompare_Eq_eq in Em; now subst m'.
Qed.

(** The clamp [max(0, min(100, s))] lands in [0, 100] for every float. *)
Lemma clamp_bounds s :
  (0 <=? py_max 0 (py_min 100 s)) = true /\ (py_max 0 (py_min 100 s) <=? 100) = true.
Proof.
  unfold py_min, py_max, gtb.
  destruct (s <? 100) eqn:Hhi.
  - destruct (0 <? s) eqn:Hlo.
    + split; now apply ltb_leb.
    + now split.
  - now split.
Qed.

Lemma clamp_nan : py_max 0 (py_min 100 nan) = 100.
Proof. reflexivity. Qed.

End ClampFacts.

(** ** The composite score *)

Section ScoreFacts.

Local Open Scope float_scope.

Variable vix_series : Series.
Variable pcr_series : Series.

Local Ltac nan_arith :=
  rewrite ?add_nan_l, ?sub_nan_l, ?add_nan_r, ?sub_nan_r; reflexivity.

(** Once [score] is NaN every update leaves it NaN. *)
Lemma score_deviation_nan_score v : score_deviation nan v = nan.
Proof. unfold score_deviation. repeat case_match; nan_arith. Qed.
Lemma score_vix_nan_score v : score_vix nan v = nan.
Proof. unfold score_vix. repeat case_match; nan_arith. Qed.
Lemma score_breadth_nan_score v : score_breadth nan v = nan.
Proof. unfold score_breadth. repeat case_match; nan_arith. Qed.
Lemma score_spread_nan_score v : score_spread nan v = nan.
Proof. unfold score_spread. repeat case_match; nan_arith. Qed.
Lemma score_yield_nan_score v : score_yield nan v = nan.
Proof. unfold score_yield. repeat case_match; nan_arith. Qed.
Lemma score_pcr_nan_score v : score_pcr nan v = nan.
Proof. unfold score_pcr. repeat case_match; nan_arith. Qed.
Lemma score_momentum_nan_score v : score_momentum nan v = nan.
Proof. unfold score_momentum. repeat case_match; nan_arith. Qed.

(** A NaN input fails both tests of its rule and enters the sum through
    the linear branch. *)
Lemma score_deviation_nan_value s : score_deviation s nan = nan.
Proof. unfold score_deviation; simpl. apply add_nan_r. Qed.
Lemma score_vix_nan_value s : score_vix s nan = nan.
Proof. unfold score_vix; simpl. apply add_nan_r. Qed.
Lemma score_breadth_nan_value s : score_breadth s nan = nan.
Proof. unfold score_breadth; simpl. apply add_nan_r. Qed.
Lemma score_spread_nan_value s : score_spread s nan = nan.
Proof. unfold score_spread; simpl. apply sub_nan_r. Qed.
Lemma score_yield_nan_value s : score_yield s nan = nan.
Proof. unfold score_yield; simpl. apply add_nan_r. Qed.
Lemma score_pcr_nan_value s : score_pcr s nan = nan.
Proof. unfold score_pcr; simpl. apply add_nan_r. Qed.
Lemma score_momentum_nan_value s : score_momentum s nan = nan.
Proof. unfold score_momentum; simpl. apply add_nan_r. Qed.

Lemma dev_avg_nan row col :
  col ∈ ["Dev_50"; "Dev_100"; "Dev_200"] ->
  values row !! col = Some nan -> dev_avg row = nan.
Proof.
  intros Hin Hv. unfold dev_avg, row_get.
  repeat (apply elem_of_cons in Hin as [->|Hin]);
    [| | |by apply elem_of_nil in Hin];
    rewrite Hv; simpl;
    rewrite ?add_nan_l, ?add_nan_r, ?add_nan_l; apply div_nan_l.
Qed.

Lemma raw_score_nan_field row col :
  col ∈ consumed_fields -> values row !! col = Some nan ->
  raw_score vix_series pcr_series row = nan.
Proof.
  intros Hin Hv. unfold raw_score, consumed_fields in *.
  repeat (apply elem_of_cons in Hin as [->|Hin]);
    [ rewrite (dev_avg_nan row "Dev_50") by (set_solver || done)
    | rewrite (dev_avg_nan row "Dev_100") by (set_solver || done)
    | rewrite (dev_avg_nan row "Dev_200") by (set_solver || done)
    | unfold breadth_val, row_get; rewrite Hv; simpl
    | unfold spread_val, row_get; rewrite Hv; simpl
    | unfold yield_val, row_get; rewrite Hv; simpl
    | unfold mom_val, row_get; rewrite Hv; simpl
    | by apply elem_of_nil in Hin ];
    rewrite ?score_deviation_nan_value, ?score_breadth_nan_value,
      ?score_spread_nan_value, ?score_yield_nan_value,
      ?score_momentum_nan_value;
    now rewrite ?score_vix_nan_score, ?score_breadth_nan_score,
      ?score_spread_nan_score, ?score_yield_nan_score, ?score_pcr_nan_score,
      ?score_momentum_nan_score.
Qed.

(** C2: whatever the row and the two series hold, the returned score [s]
    satisfies [0 <= s] and [s <= 100]. *)
Theorem score_in_0_100 (row : Row) :
  (0 <=? calculate_composite_score vix_series pcr_series row) = true /\
  (calculate_composite_score vix_series pcr_series row <=? 100) = true.
Proof. unfold calculate_composite_score. apply clamp_bounds. Qed.

(** C3: when one of the row fields the score reads is present and NaN, the
    NaN reaches the sum and the function returns exactly 100. *)
Theorem nan_field_scores_100 (row : Row) (col : string) (v : float) :
  col ∈ consumed_fields -> values row !! col = Some v -> isnan v = true ->
  calculate_composite_score vix_series pcr_series row = 100.
Proof.
  intros Hin Hv Hnan. apply isnan_eq in Hnan. subst v.
  unfold calculate_composite_score.
  rewrite (raw_score_nan_field row col Hin Hv). apply clamp_nan.
Qed.

(** C9: the volatility update changes the score by exactly -10 at 40, by
    +10 at 10 and by (30-20)/1.5, that is 6.666666666666667, at 20; in
    general by +10 below 16, by -10 above 30 and by (30-vix)/1.5 in every
    other case. *)
Theorem volatility_adjustment (score : float) :
  score_vix score 40 = score - 10 /\
  score_vix score 10 = score + 10 /\
  score_vix score 20 = score + (30 - 20) / 1.5 /\
  (30 - 20) / 1.5 = 6.666666666666667 /\
  (6.6665 <? (30 - 20) / 1.5) && ((30 - 20) / 1.5 <? 6.6675) = true /\
  forall v,
    ((v <? 16) = true -> score_vix score v = score + 10) /\
    ((v >? 30) = true -> score_vix score v = score - 10) /\
    ((v <? 16) = false -> (v >? 30) = false ->
     score_vix score v = score + (30 - v) / 1.5).
Proof.
  repeat split; try reflexivity; unfold score_vix.
  - now intros ->.
  - intros Hhi. destruct (v <? 16) eqn:Hlo.
    + unfold gtb in Hhi. now pose proof (ltb_trans _ _ _ Hhi Hlo).
    + now rewrite Hhi.
  - now intros -> ->.
Qed.

(** C1 (amended): on every row whose seven inputs compare equal to their
    neutral values (deviation average 0, volatility 20, breadth 50, spread
    0, yield curve 0, put/call 1.0, momentum 0) the score is
    50 + 10 + (30-20)/1.5, the float 66.66666666666667: the deviation rule
    and the volatility rule contribute at these values. *)
Theorem neutral_inputs_score (row : Row) :
  (dev_avg row =? 0) = true ->
  (vix_val vix_series row =? 20) = true ->
  (breadth_val row =? 50) = true ->
  (spread_val row =? 0) = true ->
  (yield_val row =? 0) = true ->
  (pcr_val pcr_series row =? 1.0) = true ->
  (mom_val row =? 0) = true ->
  calculate_composite_score vix_series pcr_series row = 50 + 10 + (30 - 20) / 1.5 /\
  calculate_composite_score vix_series pcr_series row = 66.66666666666667.
Proof.
  intros Hd Hv Hb Hs Hy Hp Hm.
  unfold calculate_composite_score, raw_score.
  eapply eqb_finite_eq in Hv; [|reflexivity].
  eapply eqb_finite_eq in Hb; [|reflexivity].
  eapply eqb_finite_eq in Hp; [|reflexivity].
  rewrite Hv, Hb, Hp.
  destruct (eqb_zero_cases _ Hd) as [-> | ->],
           (eqb_zero_cases _ Hs) as [-> | ->],
           (eqb_zero_cases _ Hy) as [-> | ->],
           (eqb_zero_cases _ Hm) as [-> | ->];
    split; vm_compute; reflexivity.
Qed.

End ScoreFacts.

(** C1 (as stated) fails: with every input at its neutral value, present
    in the row or substituted by the defaults, the score is not 50. *)
Lemma neutral_score_not_50 :
  calculate_composite_score neutral_vix neutral_pcr neutral_row <> 50%float /\
  calculate_composite_score [] [] bare_row <> 50%float /\
  calculate_composite_score neutral_vix neutral_pcr neutral_row = 66.66666666666667%float /\
  calculate_composite_score [] [] bare_row = 66.66666666666667%float.
Proof. vm_compute. repeat split; discriminate. Qed.

Lemma neutral_inputs_score_witness :
  calculate_composite_score neutral_vix neutral_pcr neutral_row
  = 66.66666666666667%float.
Proof.
  apply (neutral_inputs_score neutral_vix neutral_pcr neutral_row);
    vm_compute; reflexivity.
Defined.

Lemma nan_field_scores_100_witness :
  calculate_composite_score neutral_vix neutral_pcr
    (mkRow 7 (<["Dev_200" := nan]> (values neutral_row))) = 100%float.
Proof.
  apply (nan_field_scores_100 neutral_vix neutral_pcr _ "Dev_200" nan).
  - unfold consumed_fields. set_solver.
  - vm_compute. reflexivity.
  - reflexivity.
Defined.

(** ** The breadth proxy *)

Section BreadthFacts.

Context `{Numerics}.
Local Open Scope float_scope.

Lemma rolling_mean_length w xs : length (rolling_mean w xs) = length xs.
Proof. unfold rolling_mean. apply length_imap. Qed.

Lemma rolling_mean_short w xs i x :
  xs !! i = Some x -> (S i < w)%nat -> rolling_mean w xs !! i = Some nan.
Proof.
  intros Hx Hi. unfold rolling_mean. rewrite list_lookup_imap, Hx. simpl.
  apply Nat.ltb_lt in Hi. now rewrite Hi.
Qed.

(** C6 (amended): the breadth proxy is 100 on the dates whose close strictly
    exceeds the trailing 50-day mean and 0 on all others; on each of the
    first 49 observations, where the mean is undefined, it is 0. *)
Theorem breadth_proxy_values (df : DataFrame) (closes : list float) :
  df_col df "Close" = Some closes ->
  exists df' proxy,
    calculate_market_breadth df = Some df' /\
    index df' = index df /\
    df_col df' "Breadth_Proxy" = Some proxy /\
    length proxy = length closes /\
    forall i c, closes !! i = Some c ->
      exists m,
        rolling_mean 50 closes !! i = Some m /\
        proxy !! i = Some (if c >? m then 100 else 0) /\
        ((i < 49)%nat -> isnan m = true /\ proxy !! i = Some 0).
Proof.
  intros Hc. unfold calculate_market_breadth. rewrite Hc. simpl.
  eexists _, _. split; [reflexivity|]. split; [reflexivity|].
  split; [apply lookup_insert_eq|].
  split.
  { rewrite length_zip_with, rolling_mean_length. lia. }
  intros i c Hi.
  destruct (rolling_mean 50 closes !! i) as [m|] eqn:Hm.
  2:{ apply lookup_ge_None in Hm. rewrite rolling_mean_length in Hm.
      apply lookup_lt_Some in Hi. lia. }
  exists m. split; [reflexivity|].
  assert (Hz : zip_with (fun c m => flag_times_100 (c >? m)) closes
                 (rolling_mean 50 closes) !! i
               = Some (if c >? m then 100 else 0)).
  { rewrite lookup_zip_with, Hi. simpl. rewrite Hm. simpl.
    unfold flag_times_100. now destruct (c >? m). }
  split; [exact Hz|].
  intros Hlt.
  rewrite (rolling_mean_short 50 closes i c Hi) in Hm by lia.
  injection Hm as <-. split; [reflexivity|].
  rewrite Hz. unfold gtb. now rewrite ltb_nan_l.
Qed.

End BreadthFacts.

(** C6 (as stated) fails: on a three-day table the proxy of the first day,
    which has no 50-day window, is the number 0 and not an undefined value. *)
Lemma breadth_first_days_zero :
  (calculate_market_breadth three_days ≫= fun df => cell df 0 "Breadth_Proxy")
  = Some 0%float /\
  isnan 0 = false.
Proof. vm_compute. split; reflexivity. Qed.

Lemma breadth_proxy_values_witness :
  exists df' proxy,
    calculate_market_breadth three_days = Some df' /\
    index df' = index three_days /\
    df_col df' "Breadth_Proxy" = Some proxy /\
    length proxy = 3%nat /\
    forall i c, [100; 101; 102]%float !! i = Some c ->
      exists m,
        rolling_mean 50 [100; 101; 102]%float !! i = Some m /\
        proxy !! i = Some (if c >? m then 100 else 0)%float /\
        ((i < 49)%nat -> isnan m = true /\ proxy !! i = Some 0%float).
Proof.
  apply (breadth_proxy_values three_days [100; 101; 102]%float).
  vm_compute. reflexivity.
Defined.

(** ** Cells of a table after column assignments *)

Section TableFacts.

Lemma df_col_set_col_eq df col vs : df_col (set_col df col vs) col = Some vs.
Proof. unfold df_col, set_col; simpl. apply lookup_insert_eq. Qed.

Lemma df_col_set_col_ne df col col' vs :
  col <> col' -> df_col (set_col df col vs) col' = df_col df col'.
Proof. intros. unfold df_col, set_col; simpl. by apply lookup_insert_ne. Qed.

Lemma cell_set_col_eq df col vs i : cell (set_col df col vs) i col = vs !! i.
Proof. unfold cell. by rewrite df_col_set_col_eq. Qed.

Lemma cell_set_col_ne df col col' vs i :
  col <> col' -> cell (set_col df col vs) i col' = cell df i col'.
Proof. intros. unfold cell. by rewrite df_col_set_col_ne. Qed.

(** The row at a position holds the cells of that position. *)
Lemma df_row_values df i row col :
  df_row df i = Some row -> values row !! col = cell df i col.
Proof.
  unfold df_row, cell, df_col. destruct (index df !! i); [|done].
  simpl. intros [= <-]. simpl. apply lookup_omap.
Qed.

Lemma df_row_name df i row :
  df_row df i = Some row -> index df !! i = Some (name row).
Proof.
  unfold df_row. destruct (index df !! i); [|done]. simpl. by intros [= <-].
Qed.

End TableFacts.

(** ** The indicator calculator *)

Section IndicatorFacts.

Context `{Numerics}.
Local Open Scope float_scope.

Lemma ffill_from_length a vs : length (ffill_from a vs) = length vs.
Proof. revert a. induction vs as [|v vs IH]; intros a; simpl; [|rewrite IH]; done. Qed.

Lemma talib_SMA_lookback real n i x :
  real !! i = Some x -> (S i < n)%nat -> talib_SMA real n !! i = Some nan.
Proof.
  intros Hx Hi. unfold talib_SMA. rewrite list_lookup_imap, Hx. simpl.
  apply Nat.ltb_lt in Hi. now rewrite Hi.
Qed.

Lemma deviation_undefined close ma i c :
  close !! i = Some c -> ma !! i = Some nan -> deviation close ma !! i = Some nan.
Proof.
  intros Hc Hm. unfold deviation. rewrite lookup_zip_with, Hc. simpl.
  rewrite Hm. simpl. now rewrite div_nan_r, sub_nan_l, mul_nan_l.
Qed.

Lemma shift_lookback n xs i x :
  xs !! i = Some x -> (i < n)%nat -> shift n xs !! i = Some nan.
Proof.
  intros Hx Hi. unfold shift. apply lookup_lt_Some in Hx.
  rewrite lookup_take_lt by done.
  rewrite lookup_app_l by (rewrite length_replicate; done).
  now apply lookup_replicate_2.
Qed.

Lemma pct_change_lookback n xs i x :
  xs !! i = Some x -> (i < n)%nat -> pct_change n xs !! i = Some nan.
Proof.
  intros Hx Hi. unfold pct_change, ffill_values.
  assert (Hd : is_Some (ffill_from nan xs !! i)).
  { apply lookup_lt_is_Some. rewrite ffill_from_length.
    now apply lookup_lt_Some in Hx. }
  destruct Hd as [y Hy].
  rewrite lookup_zip_with, Hy. simpl.
  rewrite (shift_lookback n _ i y Hy Hi). simpl.
  now rewrite div_nan_r, sub_nan_l.
Qed.

(** What the calculator leaves on a table that has the price columns. *)
Lemma calculate_technical_indicators_short (df : DataFrame) (closes highs lows : list float) :
  df_col df "Close" = Some closes ->
  df_col df "High" = Some highs ->
  df_col df "Low" = Some lows ->
  exists df',
    calculate_technical_indicators df = Some df' /\
    index df' = index df /\
    forall i c, closes !! i = Some c ->
      ((i < 49)%nat -> cell df' i "MA_50" = Some nan /\ cell df' i "Dev_50" = Some nan) /\
      ((i < 99)%nat -> cell df' i "MA_100" = Some nan /\ cell df' i "Dev_100" = Some nan) /\
      ((i < 199)%nat -> cell df' i "MA_200" = Some nan /\ cell df' i "Dev_200" = Some nan) /\
      ((i < 5)%nat -> cell df' i "Momentum_5D" = Some nan).
Proof.
  intros Hc Hh Hl. unfold calculate_technical_indicators. rewrite Hc. simpl.
  rewrite !df_col_set_col_ne, Hh, Hl by done. simpl.
  eexists. split; [reflexivity|]. split; [reflexivity|].
  intros i c Hi.
  assert (H50 : (i < 49)%nat -> talib_SMA closes 50 !! i = Some nan)
    by (intros; apply (talib_SMA_lookback _ _ _ c); [done|lia]).
  assert (H100 : (i < 99)%nat -> talib_SMA closes 100 !! i = Some nan)
    by (intros; apply (talib_SMA_lookback _ _ _ c); [done|lia]).
  assert (H200 : (i < 199)%nat -> talib_SMA closes 200 !! i = Some nan)
    by (intros; apply (talib_SMA_lookback _ _ _ c); [done|lia]).
  repeat match goal with
         | |- _ /\ _ => split
         | |- (_ < _)%nat -> _ => intros Hlt
         end;
    rewrite !cell_set_col_ne, cell_set_col_eq by done;
    try (by auto);
    try (apply (deviation_undefined _ _ _ c); by auto).
  now rewrite list_lookup_fmap, (pct_change_lookback 5 closes i c) by done.
Qed.

End IndicatorFacts.

(** ** Alignment of the auxiliary series *)

Section AlignmentFacts.

Local Open Scope float_scope.

Lemma increasing_tail d idx : increasing (d :: idx) = true -> increasing idx = true.
Proof. destruct idx as [|d' idx]; [done|]. simpl. by intros [_ ?]%andb_prop. Qed.

Lemma increasing_head_lt d idx k b :
  increasing (d :: idx) = true -> idx !! k = Some b -> (d < b)%Z.
Proof.
  revert d k. induction idx as [|d' idx IH]; intros d k Hinc Hk; [done|].
  simpl in Hinc. apply andb_prop in Hinc as [Hlt Hinc]. apply Z.ltb_lt in Hlt.
  destruct k as [|k]; simpl in Hk.
  - injection Hk as <-. done.
  - pose proof (IH d' k Hinc Hk). lia.
Qed.

Lemma increasing_lookup_le idx j k a b :
  increasing idx = true -> (j <= k)%nat ->
  idx !! j = Some a -> idx !! k = Some b -> (a <= b)%Z.
Proof.
  revert j k. induction idx as [|d idx IH]; intros j k Hinc Hjk Hj Hk; [done|].
  destruct j as [|j], k as [|k]; simpl in *; try lia.
  - injection Hj as <-. injection Hk as <-. lia.
  - injection Hj as <-. pose proof (increasing_head_lt _ _ _ _ Hinc Hk). lia.
  - apply (IH j k); [by eapply increasing_tail|lia|done|done].
Qed.

Lemma series_lookup_zip idx (vs : list float) i d :
  increasing idx = true -> idx !! i = Some d -> length vs = length idx ->
  series_lookup (zip idx vs) d = vs !! i.
Proof.
  revert vs i. induction idx as [|d0 idx IH]; intros vs i Hinc Hi Hlen; [done|].
  destruct vs as [|v vs]; [done|]. simpl in Hlen.
  destruct i as [|i]; simpl in *.
  - injection Hi as ->. by rewrite Z.eqb_refl.
  - pose proof (increasing_head_lt _ _ _ _ Hinc Hi) as Hlt.
    assert (Z.eqb d0 d = false) as -> by (apply Z.eqb_neq; lia).
    apply IH; [by eapply increasing_tail|done|lia].
Qed.

Lemma reindex_labels s idx : (reindex s idx).*1 = idx.
Proof. unfold reindex. induction idx as [|d idx IH]; [done|]. simpl. by f_equal. Qed.

Lemma reindex_values s idx : (reindex s idx).*2 = map (observed s) idx.
Proof. unfold reindex. induction idx as [|d idx IH]; [done|]. simpl. by f_equal. Qed.

(** After a stretch of NaN the fill still shows the value it started with. *)
Lemma ffill_from_all_nan a vs i :
  (forall k v, (k <= i)%nat -> vs !! k = Some v -> isnan v = true) ->
  (i < length vs)%nat -> ffill_from a vs !! i = Some a.
Proof.
  revert a i. induction vs as [|v0 vs IH]; intros a i Hnan Hlen; simpl in *; [lia|].
  rewrite (Hnan O v0) by (done || lia).
  destruct i as [|i]; [done|]. simpl.
  apply IH; [|lia]. intros k v Hk Hv. apply (Hnan (S k) v); [lia|done].
Qed.

(** The fill shows the last value that was not NaN. *)
Lemma ffill_from_carry a vs j i v :
  vs !! j = Some v -> isnan v = false -> (j <= i)%nat -> (i < length vs)%nat ->
  (forall k w, (j < k <= i)%nat -> vs !! k = Some w -> isnan w = true) ->
  ffill_from a vs !! i = Some v.
Proof.
  revert a j i. induction vs as [|v0 vs IH]; intros a j i Hj Hv Hji Hlen Hnan;
    simpl in *; [lia|].
  destruct j as [|j]; simpl in Hj.
  - injection Hj as ->. rewrite Hv.
    destruct i as [|i]; [done|]. simpl.
    apply ffill_from_all_nan; [|lia].
    intros k w Hk Hw. apply (Hnan (S k) w); [lia|done].
  - destruct i as [|i]; [lia|]. simpl.
    apply (IH _ j i); [done|done|lia|lia|].
    intros k w Hk Hw. apply (Hnan (S k) w); [lia|done].
Qed.

(** The fill at a position reads nothing beyond that position. *)
Lemma ffill_from_prefix a vs vs' i :
  take (S i) vs = take (S i) vs' -> ffill_from a vs !! i = ffill_from a vs' !! i.
Proof.
  revert a vs' i. induction vs as [|v0 vs IH]; intros a vs' i Hpre.
  - destruct vs'; [done|discriminate].
  - destruct vs' as [|v0' vs']; [discriminate|].
    simpl in Hpre. injection Hpre as -> Hpre.
    destruct i as [|i]; [done|]. simpl. by apply IH.
Qed.

Lemma aligned_lookup aux idx i d :
  increasing idx = true -> idx !! i = Some d ->
  series_lookup (ffill (reindex aux idx)) d
  = ffill_from nan (map (observed aux) idx) !! i.
Proof.
  intros Hinc Hi. unfold ffill, ffill_values.
  rewrite reindex_labels, reindex_values.
  apply series_lookup_zip; [done|done|].
  by rewrite ffill_from_length, length_map.
Qed.

(** C7 (amended): for a series aligned by reindexing on the primary dates
    and forward filling, the value at a primary date is the auxiliary
    observation at the latest primary date, at or before it, that has one
    which is not NaN; it is undefined when no primary date up to it has
    one; and it is the same for every auxiliary series with the same
    observations up to that date.  A column that is only reindexed holds the
    observation of the date itself, undefined when there is none. *)
Theorem aligned_value_forward_fill (aux : Series) (idx : list Z) (i : nat) (d : Z) :
  increasing idx = true -> idx !! i = Some d ->
  (forall j dj, (j <= i)%nat -> idx !! j = Some dj ->
     isnan (observed aux dj) = false ->
     (forall k dk, (j < k <= i)%nat -> idx !! k = Some dk ->
        isnan (observed aux dk) = true) ->
     series_lookup (ffill (reindex aux idx)) d = Some (observed aux dj)) /\
  ((forall k dk, (k <= i)%nat -> idx !! k = Some dk ->
      isnan (observed aux dk) = true) ->
   series_lookup (ffill (reindex aux idx)) d = Some nan) /\
  (forall aux',
     (forall d', (d' <= d)%Z -> series_lookup aux' d' = series_lookup aux d') ->
     series_lookup (ffill (reindex aux' idx)) d
     = series_lookup (ffill (reindex aux idx)) d) /\
  (forall df col, index df = idx ->
     cell (set_col_series df col aux) i col = Some (observed aux d)).
Proof.
  intros Hinc Hi.
  assert (Hlen : (i < length (map (observed aux) idx))%nat).
  { rewrite length_map. by apply lookup_lt_Some in Hi. }
  repeat split.
  - intros j dj Hji Hj Hv Hnan. rewrite (aligned_lookup aux idx i d) by done.
    apply (ffill_from_carry _ _ j); try done.
    + by rewrite list_lookup_fmap, Hj.
    + intros k w Hk Hw. rewrite list_lookup_fmap in Hw.
      destruct (idx !! k) as [dk|] eqn:Hdk; [|done].
      simpl in Hw. injection Hw as <-. by apply (Hnan k dk).
  - intros Hnan. rewrite (aligned_lookup aux idx i d) by done.
    apply ffill_from_all_nan; [|done].
    intros k w Hk Hw. rewrite list_lookup_fmap in Hw.
    destruct (idx !! k) as [dk|] eqn:Hdk; [|done].
    simpl in Hw. injection Hw as <-. by apply (Hnan k dk).
  - intros aux' Hagree. rewrite !(aligned_lookup _ idx i d) by done.
    apply ffill_from_prefix. apply list_eq. intros k.
    rewrite !lookup_take, !list_lookup_fmap.
    case_decide as Hk; [|done].
    destruct (idx !! k) as [dk|] eqn:Hdk; [|done]. simpl.
    unfold observed. rewrite Hagree; [done|].
    apply (increasing_lookup_le idx k i); [done|lia|done|done].
  - intros df col Hdf. unfold set_col_series.
    by rewrite cell_set_col_eq, Hdf, list_lookup_fmap, Hi.
Qed.

End AlignmentFacts.

(** C7 (as stated) fails.  The auxiliary series has one observation, 30 on
    day 5; the primary dates are 1-4, 6 and 7.  Day 6 has no exact
    observation and the most recent prior one is 30, yet the aligned value
    of day 6 is undefined: reindexing dropped day 5 before the fill.  And a
    column assigned from a series observed on days 1 and 2 is undefined on
    day 3: such columns are not filled at all. *)
Lemma forward_fill_drops_off_index_observation :
  series_lookup [(5, 30%float)] 6 = None /\
  most_recent_prior [(5, 30%float)] 6 = Some 30%float /\
  series_lookup (ffill (reindex [(5, 30%float)] [1; 2; 3; 4; 6; 7])) 6 = Some nan /\
  most_recent_prior [(1, 100%float); (2, 100%float)] 3 = Some 100%float /\
  cell (set_col_series three_days "Breadth" [(1, 100%float); (2, 100%float)]) 2 "Breadth"
  = Some nan.
Proof. vm_compute. repeat split; reflexivity. Qed.

Lemma aligned_value_forward_fill_witness :
  series_lookup (ffill (reindex [(1, 18%float); (3, 21%float)] [1; 2; 3])) 2
  = Some 18%float.
Proof.
  destruct (aligned_value_forward_fill [(1, 18%float); (3, 21%float)] [1; 2; 3] 1 2)
    as (Hcarry & _); [reflexivity|reflexivity|].
  apply (Hcarry 0%nat 1); [lia|reflexivity|reflexivity|].
  intros k dk Hk Hdk. assert (k = 1%nat) as -> by lia.
  injection Hdk as <-. reflexivity.
Defined.

(** ** Positions in an increasing index *)

Section IndexFacts.

Lemma increasing_lookup_lt idx j k a b :
  increasing idx = true -> (j < k)%nat ->
  idx !! j = Some a -> idx !! k = Some b -> (a < b)%Z.
Proof.
  revert j k. induction idx as [|d idx IH]; intros j k Hinc Hjk Hj Hk; [done|].
  destruct k as [|k]; [lia|]. simpl in Hk.
  destruct j as [|j]; simpl in Hj.
  - injection Hj as <-. by eapply increasing_head_lt.
  - apply (IH j k); [by eapply increasing_tail|lia|done|done].
Qed.

Lemma count_label_absent idx d :
  (forall k b, idx !! k = Some b -> b <> d) -> count_label idx d = O.
Proof.
  induction idx as [|d0 idx IH]; intros Hne; [done|]. simpl.
  assert (Z.eqb d0 d = false) as ->
    by (apply Z.eqb_neq; apply (Hne O); done).
  apply IH. intros k b Hk. by apply (Hne (S k)).
Qed.

Lemma get_loc_increasing idx i d :
  increasing idx = true -> idx !! i = Some d -> get_loc idx d = Some i.
Proof.
  unfold get_loc. revert i.
  induction idx as [|d0 idx IH]; intros i Hinc Hi; [done|].
  destruct i as [|i]; simpl in *.
  - injection Hi as ->. rewrite Z.eqb_refl.
    rewrite count_label_absent; [done|].
    intros k b Hk. pose proof (increasing_head_lt _ _ _ _ Hinc Hk). lia.
  - pose proof (increasing_head_lt _ _ _ _ Hinc Hi) as Hlt.
    assert (Z.eqb d0 d = false) as -> by (apply Z.eqb_neq; lia).
    simpl. specialize (IH i (increasing_tail _ _ Hinc) Hi).
    destruct (Nat.eqb (count_label idx d) 1); [|done].
    by rewrite IH.
Qed.

(** The label of a position is the last label exactly at the last position. *)
Lemma latest_label_iff idx i d latest :
  increasing idx = true -> idx !! i = Some d -> last idx = Some latest ->
  Z.eqb d latest = true <-> S i = length idx.
Proof.
  intros Hinc Hi Hlast. rewrite last_lookup in Hlast.
  pose proof (lookup_lt_Some _ _ _ Hi) as Hlen.
  rewrite Z.eqb_eq. split.
  - intros ->.
    destruct (decide (i = Nat.pred (length idx))) as [->|Hne]; [lia|].
    assert (i < Nat.pred (length idx))%nat as Hlt by lia.
    pose proof (increasing_lookup_lt idx _ _ _ _ Hinc Hlt Hi Hlast). lia.
  - intros Hlen'. replace (Nat.pred (length idx)) with i in Hlast by lia.
    congruence.
Qed.

Lemma last_tail n (xs : list float) i x :
  (0 < n)%nat -> S i = length xs -> xs !! i = Some x -> last (tail n xs) = Some x.
Proof.
  intros Hn Hlen Hx. unfold tail.
  rewrite last_lookup, lookup_drop, length_drop, <- Hx. f_equal. lia.
Qed.

End IndexFacts.

(** ** The risk signal detector *)

Section DetectorFacts.

Local Open Scope float_scope.

Variable primary_df : DataFrame.
Variable vix_series : Series.
Variable pcr_series : Series.

Lemma emits_app t a b : emits t (a ++ b) = emits t a || emits t b.
Proof. unfold emits. apply existsb_app. Qed.

Lemma rule_volatility_app row risks :
  rule_volatility vix_series row risks = risks ++ rule_volatility vix_series row [].
Proof. unfold rule_volatility. repeat case_match; simpl; by rewrite ?app_nil_r. Qed.

Lemma rule_pcr_app row risks :
  rule_pcr pcr_series row risks = risks ++ rule_pcr pcr_series row [].
Proof. unfold rule_pcr. repeat case_match; simpl; by rewrite ?app_nil_r. Qed.

Lemma rule_deviation_app row risks :
  rule_deviation row risks = risks ++ rule_deviation row [].
Proof. unfold rule_deviation. repeat case_match; simpl; by rewrite ?app_nil_r. Qed.

(** Rules 1, 4 and 5 emit neither of the two signals studied here. *)
Lemma other_rules_quiet row t :
  t = BreadthExhaustion \/ t = DeathCross ->
  emits t (rule_volatility vix_series row []) = false /\
  emits t (rule_pcr pcr_series row []) = false /\
  emits t (rule_deviation row []) = false.
Proof.
  intros [-> | ->]; unfold rule_volatility, rule_pcr, rule_deviation;
    repeat split; repeat case_match; reflexivity.
Qed.

Lemma rule_breadth_spec i row closes breadths close breadth risks :
  increasing (index primary_df) = true ->
  df_row primary_df i = Some row ->
  df_col primary_df "Close" = Some closes ->
  df_col primary_df "Breadth" = Some breadths ->
  closes !! i = Some close -> breadths !! i = Some breadth ->
  rule_breadth primary_df row risks
  = Some (risks ++
          if (S i =? length (index primary_df))%nat
             && ((close >=? series_max (tail 20 closes) * 0.99)
                 && (breadth <? series_max (tail 20 breadths) * 0.95))
          then [mkSignal BreadthExhaustion None medium] else []).
Proof.
  intros Hinc Hrow Hc Hb Hci Hbi.
  pose proof (df_row_name _ _ _ Hrow) as Hname.
  remember (S i =? length (index primary_df))%nat as is_last eqn:Hlen.
  symmetry in Hlen.
  unfold rule_breadth.
  destruct (last (index primary_df)) as [latest|] eqn:Hlast.
  2:{ apply last_None in Hlast. by rewrite Hlast in Hname. }
  simpl.
  pose proof (latest_label_iff _ _ _ _ Hinc Hname Hlast) as Hiff.
  destruct (Z.eqb (name row) latest) eqn:Heq.
  - assert (is_last = true) as ->.
    { rewrite <- Hlen. apply Nat.eqb_eq. by apply Hiff. }
    rewrite Hc, Hb. simpl. unfold row_item.
    rewrite !(df_row_values _ _ _ _ Hrow). unfold cell.
    rewrite Hc, Hb. simpl. rewrite Hci, Hbi. simpl.
    destruct (_ && _); by rewrite ?app_nil_r.
  - assert (is_last = false) as ->.
    { rewrite <- Hlen. apply Nat.eqb_neq. intros Hl. apply Hiff in Hl. congruence. }
    simpl. by rewrite app_nil_r.
Qed.

Lemma cell_before df j col v :
  cell df (S j) col = Some v -> is_Some (cell df j col).
Proof.
  unfold cell. destruct (df_col df col) as [vs|]; [|done]. simpl.
  intros Hv. apply lookup_lt_is_Some. apply lookup_lt_Some in Hv. lia.
Qed.

Lemma rule_death_cross_spec i row risks :
  increasing (index primary_df) = true ->
  df_row primary_df i = Some row ->
  rule_death_cross primary_df row risks
  = Some (risks ++
          if death_cross_at primary_df i
          then [mkSignal DeathCross None high] else []).
Proof.
  intros Hinc Hrow.
  pose proof (df_row_name _ _ _ Hrow) as Hname.
  unfold rule_death_cross, death_cross_at, row_has, row_item.
  rewrite !(df_row_values _ _ _ _ Hrow).
  destruct (cell primary_df i "MA_50") as [ma_50|] eqn:H50; simpl;
    [|by rewrite app_nil_r].
  destruct (cell primary_df i "MA_200") as [ma_200|] eqn:H200; simpl;
    [|by rewrite app_nil_r].
  destruct (ma_50 <? ma_200); simpl; [|by rewrite app_nil_r].
  rewrite (get_loc_increasing _ _ _ Hinc Hname). simpl.
  destruct i as [|j]; simpl; [by rewrite app_nil_r|].
  replace (j - 0)%nat with j by lia.
  assert (is_Some (index primary_df !! j)) as [dj Hdj].
  { apply lookup_lt_is_Some. apply lookup_lt_Some in Hname. lia. }
  rewrite Hdj. simpl. unfold df_loc.
  rewrite (get_loc_increasing _ _ _ Hinc Hdj). simpl.
  destruct (cell_before _ _ _ _ H50) as [prev_50 ->].
  destruct (cell_before _ _ _ _ H200) as [prev_200 ->]. simpl.
  destruct (prev_50 >=? prev_200); by rewrite ?app_nil_r.
Qed.

(** The whole list, on a row of the table itself. *)
Lemma identify_risk_signals_spec i row closes breadths close breadth :
  increasing (index primary_df) = true ->
  df_row primary_df i = Some row ->
  df_col primary_df "Close" = Some closes ->
  df_col primary_df "Breadth" = Some breadths ->
  closes !! i = Some close -> breadths !! i = Some breadth ->
  identify_risk_signals primary_df vix_series pcr_series row
  = Some (rule_volatility vix_series row []
          ++ (if (S i =? length (index primary_df))%nat
                 && ((close >=? series_max (tail 20 closes) * 0.99)
                     && (breadth <? series_max (tail 20 breadths) * 0.95))
              then [mkSignal BreadthExhaustion None medium] else [])
          ++ (if death_cross_at primary_df i
              then [mkSignal DeathCross None high] else [])
          ++ rule_pcr pcr_series row []
          ++ rule_deviation row []).
Proof.
  intros Hinc Hrow Hc Hb Hci Hbi. unfold identify_risk_signals.
  rewrite (rule_breadth_spec i row closes breadths close breadth) by done.
  simpl. rewrite (rule_death_cross_spec i row) by done. simpl.
  rewrite rule_deviation_app, rule_pcr_app. by rewrite <- !app_assoc.
Qed.

Lemma death_cross_at_iff df i :
  death_cross_at df i = true <->
  exists j ma_50 ma_200 prev_50 prev_200,
    i = S j /\
    cell df i "MA_50" = Some ma_50 /\ cell df i "MA_200" = Some ma_200 /\
    cell df j "MA_50" = Some prev_50 /\ cell df j "MA_200" = Some prev_200 /\
    (ma_50 <? ma_200) = true /\ (prev_50 >=? prev_200) = true.
Proof.
  unfold death_cross_at. split.
  - destruct (cell df i "MA_50") as [ma_50|]; [|done].
    destruct (cell df i "MA_200") as [ma_200|]; [|done].
    destruct i as [|j]; [by rewrite andb_false_r|]. simpl.
    replace (j - 0)%nat with j by lia.
    destruct (cell df j "MA_50") as [prev_50|] eqn:Hp50;
      [|by rewrite andb_false_r].
    destruct (cell df j "MA_200") as [prev_200|] eqn:Hp200;
      [|by rewrite andb_false_r].
    rewrite andb_true_r. intros [? ?]%andb_prop.
    by exists j, ma_50, ma_200, prev_50, prev_200.
  - intros (j & ma_50 & ma_200 & prev_50 & prev_200 & -> & -> & -> & H50 & H200 & Hlt & Hge).
    simpl. replace (j - 0)%nat with j by lia.
    by rewrite H50, H200, Hlt, Hge.
Qed.

Lemma emits_detector t row (be dc : bool) :
  t = BreadthExhaustion \/ t = DeathCross ->
  emits t (rule_volatility vix_series row []
           ++ (if be then [mkSignal BreadthExhaustion None medium] else [])
           ++ (if dc then [mkSignal DeathCross None high] else [])
           ++ rule_pcr pcr_series row []
           ++ rule_deviation row [])
  = (if be then title_eqb BreadthExhaustion t else false)
    || (if dc then title_eqb DeathCross t else false).
Proof.
  intros Ht. destruct (other_rules_quiet row t Ht) as (Hv & Hp & Hd).
  rewrite !emits_app, Hv, Hp, Hd.
  destruct Ht as [-> | ->], be, dc; reflexivity.
Qed.

Lemma level_of_emitted t lvl row (be dc : bool) s :
  (t = BreadthExhaustion /\ lvl = medium) \/ (t = DeathCross /\ lvl = high) ->
  s ∈ rule_volatility vix_series row []
      ++ (if be then [mkSignal BreadthExhaustion None medium] else [])
      ++ (if dc then [mkSignal DeathCross None high] else [])
      ++ rule_pcr pcr_series row []
      ++ rule_deviation row [] ->
  title s = t -> level s = lvl.
Proof.
  intros Ht. rewrite !elem_of_app.
  unfold rule_volatility, rule_pcr, rule_deviation.
  intros Hin Hs.
  repeat match type of Hin with
         | _ \/ _ => destruct Hin as [Hin | Hin]
         end;
    repeat case_match; simpl in Hin;
    try (apply elem_of_nil in Hin; done);
    apply list_elem_of_singleton in Hin; subst s; simpl in *;
    destruct Ht as [[-> ->] | [-> ->]]; done.
Qed.

(** C5: on a row of the table the detector returns its list, and the list
    holds the death-cross signal, of high severity, exactly when the row has
    a predecessor, [ma_50 < ma_200] on the row and [ma_50 >= ma_200] on the
    predecessor; when [ma_50 < ma_200] already held on the predecessor the
    signal is absent. *)
Theorem death_cross_on_transition_only
    (i : nat) (row : Row) (closes breadths : list float) (close breadth : float) :
  increasing (index primary_df) = true ->
  df_row primary_df i = Some row ->
  df_col primary_df "Close" = Some closes ->
  df_col primary_df "Breadth" = Some breadths ->
  closes !! i = Some close -> breadths !! i = Some breadth ->
  exists risks,
    identify_risk_signals primary_df vix_series pcr_series row = Some risks /\
    (emits DeathCross risks = true <->
     exists j ma_50 ma_200 prev_50 prev_200,
       i = S j /\
       cell primary_df i "MA_50" = Some ma_50 /\
       cell primary_df i "MA_200" = Some ma_200 /\
       cell primary_df j "MA_50" = Some prev_50 /\
       cell primary_df j "MA_200" = Some prev_200 /\
       (ma_50 <? ma_200) = true /\ (prev_50 >=? prev_200) = true) /\
    (forall s, s ∈ risks -> title s = DeathCross -> level s = high) /\
    (forall j prev_50 prev_200,
       i = S j ->
       cell primary_df j "MA_50" = Some prev_50 ->
       cell primary_df j "MA_200" = Some prev_200 ->
       (prev_50 <? prev_200) = true -> emits DeathCross risks = false).
Proof.
  intros Hinc Hrow Hc Hb Hci Hbi. eexists. split.
  { by apply (identify_risk_signals_spec i row closes breadths close breadth). }
  assert (Hemits : forall be : bool,
    emits DeathCross
      (rule_volatility vix_series row []
       ++ (if be then [mkSignal BreadthExhaustion None medium] else [])
       ++ (if death_cross_at primary_df i then [mkSignal DeathCross None high] else [])
       ++ rule_pcr pcr_series row [] ++ rule_deviation row [])
    = death_cross_at primary_df i).
  { intros be. rewrite emits_detector by auto.
    by destruct be, (death_cross_at primary_df i). }
  split; [|split].
  - rewrite Hemits. apply death_cross_at_iff.
  - intros s Hin Hs. eapply level_of_emitted; [|exact Hin|exact Hs]. auto.
  - intros j prev_50 prev_200 -> H50 H200 Hlt. rewrite Hemits.
    destruct (death_cross_at primary_df (S j)) eqn:Hdc; [|done].
    apply death_cross_at_iff in Hdc
      as (j' & ? & ? & p50 & p200 & [= <-] & _ & _ & H50' & H200' & _ & Hge).
    rewrite H50 in H50'. rewrite H200 in H200'.
    injection H50' as <-. injection H200' as <-.
    by rewrite (ltb_not_geb _ _ Hlt) in Hge.
Qed.

(** C8: on a row of the table the detector returns its list, and the list
    holds the breadth-exhaustion signal, of medium severity, exactly when
    the row is the latest one, its close is at least 0.99 times the maximum
    of the last 20 closes and its breadth is below 0.95 times the maximum of
    the last 20 breadth values; on the latest row both windows end with the
    values of that row. *)
Theorem breadth_exhaustion_latest_row_only
    (i : nat) (row : Row) (closes breadths : list float) (close breadth : float) :
  increasing (index primary_df) = true ->
  df_row primary_df i = Some row ->
  df_col primary_df "Close" = Some closes ->
  df_col primary_df "Breadth" = Some breadths ->
  length closes = length (index primary_df) ->
  length breadths = length (index primary_df) ->
  closes !! i = Some close -> breadths !! i = Some breadth ->
  exists risks,
    identify_risk_signals primary_df vix_series pcr_series row = Some risks /\
    (emits BreadthExhaustion risks = true <->
     S i = length (index primary_df) /\
     (close >=? series_max (tail 20 closes) * 0.99) = true /\
     (breadth <? series_max (tail 20 breadths) * 0.95) = true) /\
    (forall s, s ∈ risks -> title s = BreadthExhaustion -> level s = medium) /\
    (S i = length (index primary_df) ->
     last (tail 20 closes) = Some close /\ last (tail 20 breadths) = Some breadth).
Proof.
  intros Hinc Hrow Hc Hb Hlc Hlb Hci Hbi. eexists. split.
  { by apply (identify_risk_signals_spec i row closes breadths close breadth). }
  split; [|split].
  - rewrite emits_detector by auto.
    destruct (death_cross_at primary_df i); rewrite ?orb_false_r;
      (destruct (Nat.eqb_spec (S i) (length (index primary_df))) as [Hl|Hl]; simpl;
       [ destruct (close >=? _), (breadth <? _); simpl; split;
         try done; try (intros (_ & ? & ?); done)
       | split; [done|]; intros (? & _); done ]).
  - intros s Hin Hs. eapply level_of_emitted; [|exact Hin|exact Hs]. auto.
  - intros Hl. split; eapply last_tail; try done; lia.
Qed.

End DetectorFacts.

(** ** Undefined fields in the score *)

Section ShortHistoryFacts.

Context `{Numerics}.
Local Open Scope float_scope.

Lemma index_set_col_series df col s : index (set_col_series df col s) = index df.
Proof. reflexivity. Qed.

Lemma cell_set_col_series_ne df col col' s i :
  col <> col' -> cell (set_col_series df col s) i col' = cell df i col'.
Proof. intros. unfold set_col_series. by apply cell_set_col_ne. Qed.

(** Every row of the computed table that comes before the 200-day window is
    complete carries a NaN deviation, which [row.get] hands over as it is,
    and scores 100. *)
Lemma short_history_scores_100 (data : MarketData) (t : Tables)
    (closes : list float) (i : nat) (c : float) (d : Z) :
  build_tables data = Some t ->
  df_col (primary data) "Close" = Some closes ->
  closes !! i = Some c -> index (primary data) !! i = Some d -> (i < 199)%nat ->
  exists row,
    df_row (t_primary t) i = Some row /\
    row_get row "Dev_200" 0 = nan /\
    calculate_composite_score (t_vix t) (t_pcr t) row = 100.
Proof.
  intros Hrun Hc Hi Hd Hlt. unfold build_tables in Hrun.
  destruct (calculate_technical_indicators (primary data)) as [df'|] eqn:Hcalc;
    [|done].
  simpl in Hrun.
  destruct (calculate_market_breadth (spy data)) as [spy_df|]; [|done].
  simpl in Hrun.
  destruct (col_series spy_df "Breadth_Proxy") as [breadth|]; [|done].
  simpl in Hrun.
  destruct (calculate_bond_spread (hyg data) (tlt data)) as [spread|]; [|done].
  simpl in Hrun.
  destruct (col_series (vix data) "Close") as [vix_close|]; [|done].
  simpl in Hrun.
  destruct (col_series (pcr_estimate data) "PCR_Estimate") as [pcr|]; [|done].
  simpl in Hrun. injection Hrun as <-. simpl.
  assert (Hcell : cell df' i "Dev_200" = Some nan /\ index df' = index (primary data)).
  { destruct (df_col (primary data) "High") as [highs|] eqn:Hh.
    2:{ unfold calculate_technical_indicators in Hcalc. rewrite Hc in Hcalc.
        simpl in Hcalc. by rewrite !df_col_set_col_ne, Hh in Hcalc by done. }
    destruct (df_col (primary data) "Low") as [lows|] eqn:Hl.
    2:{ unfold calculate_technical_indicators in Hcalc. rewrite Hc in Hcalc.
        simpl in Hcalc. by rewrite !df_col_set_col_ne, Hh, Hl in Hcalc by done. }
    destruct (calculate_technical_indicators_short _ _ _ _ Hc Hh Hl)
      as (df'' & Hcalc' & Hidx & Hcells).
    rewrite Hcalc in Hcalc'. injection Hcalc' as <-.
    split; [|done]. by apply (Hcells i c Hi). }
  destruct Hcell as [Hcell Hidx].
  set (table := set_col_series _ "Yield_Curve" _).
  assert (Hrow : is_Some (df_row table i)).
  { unfold df_row. subst table. rewrite !index_set_col_series, Hidx, Hd. by eexists. }
  destruct Hrow as [row Hrow]. exists row. split; [done|].
  assert (Hv : values row !! "Dev_200" = Some nan).
  { rewrite (df_row_values _ _ _ _ Hrow). subst table.
    by rewrite !cell_set_col_series_ne by done. }
  split.
  - unfold row_get. by rewrite Hv.
  - unfold calculate_composite_score.
    rewrite (raw_score_nan_field _ _ row "Dev_200"); [done| |done].
    unfold consumed_fields. set_solver.
Qed.

End ShortHistoryFacts.

(** C4, on the table of three days with the volatility closes 18, 19, 20:
    the deviation from the 50-day average of the first row is undefined; the
    score reads that NaN, not the default 0, the deviation average is NaN and
    the score is 100, on all three rows; with the defaults substituted the
    deviation average would be 0 and the score 68. *)
Lemma undefined_deviation_not_defaulted :
  exists t row,
    fetch_all_data three_days calm_vix three_days three_days three_days
      ≫= build_tables = Some t /\
    df_row (t_primary t) 0 = Some row /\
    values row !! "Dev_50" = Some nan /\
    isnan (row_get row "Dev_50" 0) = true /\
    isnan (dev_avg row) = true /\
    calculate_composite_score (t_vix t) (t_pcr t) row = 100%float /\
    composite_scores t = [100; 100; 100]%float /\
    dev_avg (drop_undefined row) = 0%float /\
    calculate_composite_score (dropna (t_vix t)) (dropna (t_pcr t))
      (drop_undefined row) = 68%float.
Proof.
  do 2 eexists. split; [vm_compute; reflexivity|].
  split; [vm_compute; reflexivity|].
  vm_compute. repeat split; reflexivity.
Qed.

(** The signals of the twenty days, row by row: the death cross on day 10
    only, the breadth exhaustion on day 20 only. *)
Example death_cross_fires_once :
  df_apply (fun row => emits DeathCross
                         <$> identify_risk_signals scenario_days [] [] row)
    scenario_days
  = replicate 9 (Some false) ++ [Some true] ++ replicate 10 (Some false).
Proof. vm_compute. reflexivity. Qed.

Example breadth_exhaustion_fires_on_last_day :
  df_apply (fun row => emits BreadthExhaustion
                         <$> identify_risk_signals scenario_days [] [] row)
    scenario_days
  = replicate 19 (Some false) ++ [Some true].
Proof. vm_compute. reflexivity. Qed.

Lemma death_cross_on_transition_only_witness :
  exists row risks,
    df_row scenario_days 9 = Some row /\
    identify_risk_signals scenario_days [] [] row = Some risks /\
    emits DeathCross risks = true.
Proof.
  destruct (df_row scenario_days 9) as [row|] eqn:Hrow; [|discriminate].
  destruct (death_cross_on_transition_only scenario_days [] [] 9 row
              (replicate 19 200 ++ [199])%float (replicate 19 100 ++ [50])%float
              200%float 100%float)
    as (risks & Hrun & Hiff & _); try (vm_compute; reflexivity); [exact Hrow|].
  exists row, risks. split; [reflexivity|]. split; [exact Hrun|].
  apply Hiff. exists 8%nat, 9%float, 9.5%float, 10%float, 9.5%float.
  repeat split; vm_compute; reflexivity.
Defined.

Lemma breadth_exhaustion_latest_row_only_witness :
  exists row risks,
    df_row scenario_days 19 = Some row /\
    identify_risk_signals scenario_days [] [] row = Some risks /\
    emits BreadthExhaustion risks = true.
Proof.
  destruct (df_row scenario_days 19) as [row|] eqn:Hrow; [|discriminate].
  destruct (breadth_exhaustion_latest_row_only scenario_days [] [] 19 row
              (replicate 19 200 ++ [199])%float (replicate 19 100 ++ [50])%float
              199%float 50%float)
    as (risks & Hrun & Hiff & _); try (vm_compute; reflexivity); [exact Hrow|].
  exists row, risks. split; [reflexivity|]. split; [exact Hrun|].
  apply Hiff. repeat split; vm_compute; reflexivity.
Defined.

(** ** Sample runs *)

(** A mid-range row: 50 + 10 + 4 + 7.5 + 1.5 + 1.875 + 0 + 1. *)
Example score_of_a_mid_range_row :
  calculate_composite_score [(7, 24%float)] [(7, 1%float)]
    (mkRow 7 (list_to_map
                [("Dev_50", 1); ("Dev_100", 2); ("Dev_200", 3); ("Breadth", 100);
                 ("Junk_Spread", -1); ("Yield_Curve", 0.0625);
                 ("Momentum_5D", 1.5)])%float)
  = 75.875%float.
Proof. vm_compute. reflexivity. Qed.

(** Every rule at its worst gives 50 - 15 - 10 - 7.5 - 7.5 - 7.5 - 5 - 2.5,
    below zero, and the clamp returns 0. *)
Example score_of_the_worst_row :
  raw_score [(7, 50%float)] [(7, 0.5%float)]
    (mkRow 7 (list_to_map
                [("Dev_50", -30); ("Dev_100", -30); ("Dev_200", -30); ("Breadth", 0);
                 ("Junk_Spread", 9); ("Yield_Curve", -1); ("Momentum_5D", -9)])%float)
  = (-5)%float /\
  calculate_composite_score [(7, 50%float)] [(7, 0.5%float)]
    (mkRow 7 (list_to_map
                [("Dev_50", -30); ("Dev_100", -30); ("Dev_200", -30); ("Breadth", 0);
                 ("Junk_Spread", 9); ("Yield_Curve", -1); ("Momentum_5D", -9)])%float)
  = 0%float.
Proof. vm_compute. split; reflexivity. Qed.

(** Forward fill after reindexing, on dates that all belong to the primary
    index. *)
Example alignment_of_a_sparse_series :
  ffill (reindex [(1, 18%float); (3, 21%float)] [1; 2; 3; 4])
  = [(1, 18%float); (2, 18%float); (3, 21%float); (4, 21%float)].
Proof. vm_compute. reflexivity. Qed.

(** * Further properties of the code *)

(** ** The scores of a table *)

Section ScoreColumnFacts.

Local Open Scope float_scope.

Lemma omap_total_length {A B} (g : A -> option B) (l : list A) :
  (forall x, x ∈ l -> is_Some (g x)) -> length (omap g l) = length l.
Proof.
  induction l as [|x l IH]; intros Hg; [done|]. simpl.
  destruct (Hg x) as [y Hy]; [by left|]. rewrite Hy. simpl. f_equal.
  apply IH. intros x' Hx'. apply Hg. by right.
Qed.

Lemma df_apply_length {A} (f : Row -> A) df :
  length (df_apply f df) = length (index df).
Proof.
  unfold df_apply. rewrite omap_total_length; [by rewrite length_seq|].
  intros i Hi. apply elem_of_seq in Hi. unfold df_row.
  destruct (lookup_lt_is_Some_2 (index df) i) as [d ->]; [lia|]. by eexists.
Qed.

Lemma df_apply_elem {A} (f : Row -> A) df y :
  y ∈ df_apply f df -> exists i row, df_row df i = Some row /\ y = f row.
Proof.
  unfold df_apply. intros (i & _ & Hy)%list_elem_of_omap.
  destruct (df_row df i) as [row|] eqn:Hrow; [|done].
  simpl in Hy. injection Hy as <-. by exists i, row.
Qed.

Lemma leb_true_not_nan x y : (x <=? y) = true -> isnan y = false.
Proof.
  intros Hle. destruct (isnan y) eqn:Hy; [|done].
  apply isnan_eq in Hy. subst y. by rewrite leb_nan_r in Hle.
Qed.

(** X1: the score column holds one score per date of the table, and every
    score in it is a number between 0 and 100, never NaN. *)
Theorem composite_scores_per_date (t : Tables) :
  length (composite_scores t) = length (index (t_primary t)) /\
  forall s, s ∈ composite_scores t ->
    (0 <=? s) = true /\ (s <=? 100) = true /\ isnan s = false.
Proof.
  unfold composite_scores. split; [apply df_apply_length|].
  intros s (i & row & _ & ->)%df_apply_elem.
  unfold calculate_composite_score.
  destruct (clamp_bounds (raw_score (t_vix t) (t_pcr t) row)) as [Hlo Hhi].
  repeat split; [done|done|]. by eapply leb_true_not_nan.
Qed.

(** X2: the score reads the seven fields of the row and nothing else: a
    value stored under any other column name (the close, the averages, ATR,
    RSI) leaves it unchanged. *)
Theorem score_ignores_other_columns
    (vix_series pcr_series : Series) (d : Z) (vals : gmap string float)
    (col : string) (v : float) :
  col ∉ consumed_fields ->
  calculate_composite_score vix_series pcr_series (mkRow d (<[col := v]> vals))
  = calculate_composite_score vix_series pcr_series (mkRow d vals).
Proof.
  intros Hcol. unfold consumed_fields in Hcol.
  unfold calculate_composite_score, raw_score, dev_avg, vix_val, breadth_val,
    spread_val, yield_val, pcr_val, mom_val, row_get. simpl.
  rewrite !lookup_insert_ne; [done|set_solver..].
Qed.

End ScoreColumnFacts.

Lemma score_ignores_other_columns_witness :
  calculate_composite_score neutral_vix neutral_pcr
    (mkRow 7 (<["RSI" := 55%float]> (values neutral_row)))
  = calculate_composite_score neutral_vix neutral_pcr (mkRow 7 (values neutral_row)).
Proof.
  apply (score_ignores_other_columns neutral_vix neutral_pcr 7 (values neutral_row)
           "RSI" 55%float).
  unfold consumed_fields. intros Hin.
  repeat (apply elem_of_cons in Hin as [Hin|Hin]; [discriminate Hin|]).
  by apply elem_of_nil in Hin.
Defined.

(** ** The aligned series *)

Section AlignedSeriesFacts.

Local Open Scope float_scope.

Lemma series_lookup_is_Some (s : Series) d :
  d ∈ s.*1 -> is_Some (series_lookup s d).
Proof.
  induction s as [|[d0 v] s IH]; simpl; intros Hin; [by apply elem_of_nil in Hin|].
  destruct (Z.eqb_spec d0 d) as [->|Hne]; [by eexists|].
  apply IH. apply elem_of_cons in Hin as [->|Hin]; done.
Qed.

Lemma aligned_labels (s : Series) idx : (ffill (reindex s idx)).*1 = idx.
Proof.
  unfold ffill, ffill_values. rewrite reindex_labels, reindex_values.
  apply fst_zip. by rewrite ffill_from_length, length_map.
Qed.

(** Once the fill carries a number it carries one at every later position. *)
Lemma ffill_from_stays_defined a vs i :
  isnan a = false -> (i < length vs)%nat ->
  exists w, ffill_from a vs !! i = Some w /\ isnan w = false.
Proof.
  revert a i. induction vs as [|v vs IH]; intros a i Ha Hi; simpl in *; [lia|].
  destruct i as [|i]; simpl.
  - eexists. split; [done|]. by destruct (isnan v) eqn:Hv.
  - apply IH; [|lia]. by destruct (isnan v) eqn:Hv.
Qed.

Lemma ffill_from_defined_after a vs j i v :
  vs !! j = Some v -> isnan v = false -> (j <= i)%nat -> (i < length vs)%nat ->
  exists w, ffill_from a vs !! i = Some w /\ isnan w = false.
Proof.
  revert a j i. induction vs as [|v0 vs IH]; intros a j i Hj Hv Hji Hi;
    simpl in *; [lia|].
  destruct j as [|j]; simpl in Hj.
  - injection Hj as ->. rewrite Hv.
    destruct i as [|i]; simpl; [by eexists|].
    apply ffill_from_stays_defined; [done|lia].
  - destruct i as [|i]; [lia|]. simpl. apply (IH _ j i); [done|done|lia|lia].
Qed.

(** X4: the aligned series has no hole after its first observation: when
    the auxiliary series has a number on some primary date, the aligned
    value of that date and of every later primary date is a number. *)
Theorem aligned_defined_after_first_observation
    (aux : Series) (idx : list Z) (j i : nat) (dj d : Z) :
  increasing idx = true ->
  idx !! j = Some dj -> idx !! i = Some d -> (j <= i)%nat ->
  isnan (observed aux dj) = false ->
  exists v, series_lookup (ffill (reindex aux idx)) d = Some v /\ isnan v = false.
Proof.
  intros Hinc Hj Hi Hji Hobs.
  rewrite (aligned_lookup aux idx i d) by done.
  apply (ffill_from_defined_after _ _ j i (observed aux dj)); try done.
  - by rewrite list_lookup_fmap, Hj.
  - rewrite length_map. by apply lookup_lt_Some in Hi.
Qed.

End AlignedSeriesFacts.

Lemma aligned_defined_after_first_observation_witness :
  exists v,
    series_lookup (ffill (reindex [(2, 18%float)] [1; 2; 3; 4])) 4 = Some v /\
    isnan v = false.
Proof.
  apply (aligned_defined_after_first_observation [(2, 18%float)] [1; 2; 3; 4]
           1 3 2 4); try reflexivity. lia.
Defined.

(** ** The table the indicator calculator returns *)

Section IndicatorTableFacts.

Context `{Numerics}.
Local Open Scope float_scope.

Lemma talib_SMA_length real n : length (talib_SMA real n) = length real.
Proof. unfold talib_SMA. apply length_imap. Qed.

Lemma deviation_length close ma :
  length ma = length close -> length (deviation close ma) = length close.
Proof. intros Hl. unfold deviation. rewrite length_zip_with. lia. Qed.

Lemma pct_change_length n xs : length (pct_change n xs) = length xs.
Proof.
  unfold pct_change, shift, ffill_values.
  rewrite length_zip_with, length_take, length_app, length_replicate,
    !ffill_from_length. lia.
Qed.

(** The table the calculator builds from the three price columns. *)
Lemma calculate_technical_indicators_result df closes highs lows :
  df_col df "Close" = Some closes ->
  df_col df "High" = Some highs ->
  df_col df "Low" = Some lows ->
  calculate_technical_indicators df
  = Some (set_col (set_col (set_col (set_col (set_col (set_col (set_col (set_col
            (set_col df "MA_50" (talib_SMA closes 50))
              "MA_100" (talib_SMA closes 100))
              "MA_200" (talib_SMA closes 200))
              "Dev_50" (deviation closes (talib_SMA closes 50)))
              "Dev_100" (deviation closes (talib_SMA closes 100)))
              "Dev_200" (deviation closes (talib_SMA closes 200)))
              "Momentum_5D" (map (fun r => r * 100) (pct_change 5 closes)))
              "ATR" (talib_ATR highs lows closes 14))
              "RSI" (talib_RSI closes 14)).
Proof.
  intros Hc Hh Hl. unfold calculate_technical_indicators. rewrite Hc. simpl.
  by rewrite !df_col_set_col_ne, Hh, Hl by done.
Qed.

(** The calculator fails exactly when a price column is missing. *)
Lemma price_columns_needed (df : DataFrame) :
  calculate_technical_indicators df = None <->
  df_col df "Close" = None \/ df_col df "High" = None \/ df_col df "Low" = None.
Proof.
  destruct (df_col df "Close") as [closes|] eqn:Hc.
  2:{ unfold calculate_technical_indicators. rewrite Hc. simpl. split; auto. }
  destruct (df_col df "High") as [highs|] eqn:Hh.
  2:{ unfold calculate_technical_indicators. rewrite Hc. simpl.
      rewrite !df_col_set_col_ne, Hh by done. simpl. split; auto. }
  destruct (df_col df "Low") as [lows|] eqn:Hl.
  2:{ unfold calculate_technical_indicators. rewrite Hc. simpl.
      rewrite !df_col_set_col_ne, Hh, Hl by done. simpl. split; auto. }
  rewrite (calculate_technical_indicators_result df closes highs lows) by done.
  split; [done|]. by intros [?|[?|?]].
Qed.

(** What the returned table keeps of its input. *)
Lemma calculator_keeps_table (df df' : DataFrame) (closes : list float) :
  calculate_technical_indicators df = Some df' ->
  df_col df "Close" = Some closes ->
  index df' = index df /\
  (forall col, col ∉ derived_columns -> df_col df' col = df_col df col) /\
  (forall col, col ∈ windowed_columns ->
     exists vs, df_col df' col = Some vs /\ length vs = length closes).
Proof.
  intros Hrun Hc.
  destruct (df_col df "High") as [highs|] eqn:Hh.
  2:{ assert (calculate_technical_indicators df = None) as Hn
        by (apply price_columns_needed; auto).
      congruence. }
  destruct (df_col df "Low") as [lows|] eqn:Hl.
  2:{ assert (calculate_technical_indicators df = None) as Hn
        by (apply price_columns_needed; auto).
      congruence. }
  rewrite (calculate_technical_indicators_result df closes highs lows) in Hrun
    by done.
  injection Hrun as <-. split; [done|]. split.
  - intros col Hcol. unfold derived_columns in Hcol.
    rewrite !df_col_set_col_ne; [done|..];
      intros Heq; apply Hcol; rewrite <- Heq;
      repeat first [apply list_elem_of_here | apply list_elem_of_further].
  - intros col Hcol. unfold windowed_columns in Hcol.
    repeat (apply elem_of_cons in Hcol as [->|Hcol]);
      [..|by apply elem_of_nil in Hcol];
      rewrite ?df_col_set_col_ne by done; rewrite df_col_set_col_eq;
      eexists; (split; [reflexivity|]);
      rewrite ?deviation_length, ?length_map, ?pct_change_length,
        ?talib_SMA_length; try done; by rewrite talib_SMA_length.
Qed.

(** X5: the calculator fails, with the [KeyError] of the lookup, exactly
    when the table lacks one of the columns Close, High and Low; the length
    of the table plays no role. *)
Theorem indicators_need_price_columns (df : DataFrame) :
  calculate_technical_indicators df = None <->
  df_col df "Close" = None \/ df_col df "High" = None \/ df_col df "Low" = None.
Proof. apply price_columns_needed. Qed.

(** X6: the table the calculator returns has the dates of its input, every
    input column under a name the calculator does not write is unchanged,
    and the averages, deviations and momentum are columns as long as the
    close column. *)
Theorem indicators_keep_table (df df' : DataFrame) (closes : list float) :
  calculate_technical_indicators df = Some df' ->
  df_col df "Close" = Some closes ->
  index df' = index df /\
  (forall col, col ∉ derived_columns -> df_col df' col = df_col df col) /\
  (forall col, col ∈ windowed_columns ->
     exists vs, df_col df' col = Some vs /\ length vs = length closes).
Proof. apply calculator_keeps_table. Qed.

End IndicatorTableFacts.

Lemma indicators_keep_table_witness :
  exists df',
    calculate_technical_indicators three_days = Some df' /\
    index df' = index three_days /\
    df_col df' "Volume" = df_col three_days "Volume" /\
    exists vs, df_col df' "Dev_200" = Some vs /\ length vs = 3%nat.
Proof.
  destruct (calculate_technical_indicators three_days) as [df'|] eqn:Hrun;
    [|discriminate].
  destruct (indicators_keep_table three_days df' [100; 101; 102]%float Hrun)
    as (Hidx & Hkeep & Hlen); [reflexivity|].
  exists df'. split; [reflexivity|]. split; [exact Hidx|]. split.
  - apply Hkeep. unfold derived_columns. intros Hin.
    repeat (apply elem_of_cons in Hin as [Hin|Hin]; [discriminate Hin|]).
    by apply elem_of_nil in Hin.
  - apply (Hlen "Dev_200"). unfold windowed_columns.
    do 5 apply list_elem_of_further. apply list_elem_of_here.
Defined.

(** ** The calculator and the length of its input *)

Section CalculatorLengthFacts.

Context `{Numerics}.
Local Open Scope float_scope.

(** C10 (amended): the calculator has no check on the length of its input.
    It fails exactly when one of the columns Close, High and Low is missing;
    on every table that has them, the empty one included, it returns the
    decorated table, on the same dates, and what a short history cannot
    give is left undefined (NaN): each average and its deviation before the
    window is complete, the momentum on the first five rows, ATR and RSI
    over their lookback of 14 rows.  The only test for an empty table is the
    one of [fetch_all_data], which returns [None] on it. *)
Theorem calculator_has_no_length_check (df : DataFrame) :
  talib_lookback ->
  (calculate_technical_indicators df = None <->
   df_col df "Close" = None \/ df_col df "High" = None \/ df_col df "Low" = None) /\
  (forall closes highs lows,
     df_col df "Close" = Some closes ->
     df_col df "High" = Some highs ->
     df_col df "Low" = Some lows ->
     length highs = length closes -> length lows = length closes ->
     exists df',
       calculate_technical_indicators df = Some df' /\
       index df' = index df /\
       forall i c, closes !! i = Some c ->
         ((i < 49)%nat ->
          cell df' i "MA_50" = Some nan /\ cell df' i "Dev_50" = Some nan) /\
         ((i < 99)%nat ->
          cell df' i "MA_100" = Some nan /\ cell df' i "Dev_100" = Some nan) /\
         ((i < 199)%nat ->
          cell df' i "MA_200" = Some nan /\ cell df' i "Dev_200" = Some nan) /\
         ((i < 5)%nat -> cell df' i "Momentum_5D" = Some nan) /\
         ((i < 14)%nat ->
          cell df' i "ATR" = Some nan /\ cell df' i "RSI" = Some nan)) /\
  (forall vix_data hyg_data tlt_data spy_data,
     index df = [] ->
     fetch_all_data df vix_data hyg_data tlt_data spy_data = None).
Proof.
  intros Hlib. split; [apply price_columns_needed|]. split.
  - intros closes highs lows Hc Hh Hl Hlh Hll.
    destruct (calculate_technical_indicators_short df closes highs lows Hc Hh Hl)
      as (df' & Hrun & Hidx & Hcells).
    exists df'. split; [done|]. split; [done|].
    intros i c Hi. destruct (Hcells i c Hi) as (H50 & H100 & H200 & Hmom).
    split; [exact H50|]. split; [exact H100|]. split; [exact H200|].
    split; [exact Hmom|].
    intros Hlt.
    rewrite (calculate_technical_indicators_result df closes highs lows)
      in Hrun by done.
    injection Hrun as <-.
    destruct (Hlib highs lows closes 14%nat i Hlh Hll Hlt) as [Hatr Hrsi];
      [by apply lookup_lt_Some in Hi|].
    split.
    + by rewrite cell_set_col_ne, cell_set_col_eq by done.
    + by rewrite cell_set_col_eq.
  - intros vix_data hyg_data tlt_data spy_data Hempty.
    unfold fetch_all_data, df_empty. by rewrite Hempty.
Qed.

End CalculatorLengthFacts.

(** C10 (as stated) fails: the table with the price columns and no row is
    an empty input, and the calculator returns on it, with an empty table. *)
Lemma calculator_returns_on_empty_table :
  index empty_prices = [] /\
  calculate_technical_indicators empty_prices <> None /\
  (calculate_technical_indicators empty_prices ≫= fun df => Some (index df))
  = Some [].
Proof. vm_compute. repeat split. discriminate. Qed.

Lemma calculator_has_no_length_check_witness :
  exists df',
    calculate_technical_indicators three_days = Some df' /\
    index df' = index three_days /\
    forall i c, [100; 101; 102]%float !! i = Some c ->
      ((i < 49)%nat ->
       cell df' i "MA_50" = Some nan /\ cell df' i "Dev_50" = Some nan) /\
      ((i < 99)%nat ->
       cell df' i "MA_100" = Some nan /\ cell df' i "Dev_100" = Some nan) /\
      ((i < 199)%nat ->
       cell df' i "MA_200" = Some nan /\ cell df' i "Dev_200" = Some nan) /\
      ((i < 5)%nat -> cell df' i "Momentum_5D" = Some nan) /\
      ((i < 14)%nat ->
       cell df' i "ATR" = Some nan /\ cell df' i "RSI" = Some nan).
Proof.
  destruct (calculator_has_no_length_check three_days) as (_ & Hrun & _).
  - intros high low close n i Hh Hl Hn Hi. simpl. split.
    + apply lookup_replicate_2. lia.
    + by apply lookup_replicate_2.
  - apply (Hrun [100; 101; 102]%float [101; 102; 103]%float [99; 100; 101]%float);
      reflexivity.
Defined.

(** ** The rows of the computed table *)

Section PipelineRowFacts.

Context `{Numerics}.
Local Open Scope float_scope.

(** What a successful run of the computation block is made of. *)
Lemma build_tables_inv (data : MarketData) (t : Tables) :
  build_tables data = Some t ->
  exists df' breadth spread vix_close pcr,
    calculate_technical_indicators (primary data) = Some df' /\
    col_series (vix data) "Close" = Some vix_close /\
    col_series (pcr_estimate data) "PCR_Estimate" = Some pcr /\
    t_primary t
    = set_col_series
        (set_col_series (set_col_series df' "Breadth" breadth) "Junk_Spread" spread)
        "Yield_Curve"
        (calculate_yield_curve
           (set_col_series (set_col_series df' "Breadth" breadth)
              "Junk_Spread" spread)) /\
    t_vix t = ffill (reindex vix_close (index df')) /\
    t_pcr t = ffill (reindex pcr (index df')).
Proof.
  intros Hrun. unfold build_tables in Hrun.
  destruct (calculate_technical_indicators (primary data)) as [df'|]; [|done].
  simpl in Hrun.
  destruct (calculate_market_breadth (spy data)) as [spy_df|]; [|done].
  simpl in Hrun.
  destruct (col_series spy_df "Breadth_Proxy") as [breadth|]; [|done].
  simpl in Hrun.
  destruct (calculate_bond_spread (hyg data) (tlt data)) as [spread|]; [|done].
  simpl in Hrun.
  destruct (col_series (vix data) "Close") as [vix_close|]; [|done].
  simpl in Hrun.
  destruct (col_series (pcr_estimate data) "PCR_Estimate") as [pcr|]; [|done].
  simpl in Hrun. injection Hrun as <-.
  by exists df', breadth, spread, vix_close, pcr.
Qed.

Lemma cell_set_col_series_eq df col s i d :
  index df !! i = Some d -> cell (set_col_series df col s) i col = Some (observed s d).
Proof.
  intros Hd. unfold set_col_series.
  by rewrite cell_set_col_eq, list_lookup_fmap, Hd.
Qed.

Lemma build_tables_index data t :
  build_tables data = Some t -> index (t_primary t) = index (primary data).
Proof.
  intros (df' & breadth & spread & vix_close & pcr & Hcalc & _ & _ & -> & _)
    %build_tables_inv.
  rewrite !index_set_col_series.
  destruct (df_col (primary data) "Close") as [closes|] eqn:Hc.
  - by destruct (calculator_keeps_table _ _ _ Hcalc Hc).
  - assert (calculate_technical_indicators (primary data) = None) as Hn
      by (apply price_columns_needed; auto).
    congruence.
Qed.

(** X7: on every row of the computed table (the close column being as long
    as the index) each of the seven fields the score reads is present, and
    both aligned series have an entry for the row's date: none of the
    defaults of the [get] calls is ever used there. *)
Theorem pipeline_rows_have_every_field
    (data : MarketData) (t : Tables) (closes : list float) (i : nat) (d : Z) :
  build_tables data = Some t ->
  df_col (primary data) "Close" = Some closes ->
  length closes = length (index (primary data)) ->
  index (primary data) !! i = Some d ->
  exists row,
    df_row (t_primary t) i = Some row /\ name row = d /\
    (forall col, col ∈ consumed_fields -> is_Some (values row !! col)) /\
    is_Some (series_lookup (t_vix t) d) /\
    is_Some (series_lookup (t_pcr t) d).
Proof.
  intros Hrun Hc Hlen Hd.
  pose proof (build_tables_index _ _ Hrun) as Hidx.
  destruct (build_tables_inv _ _ Hrun)
    as (df' & breadth & spread & vix_close & pcr & Hcalc & _ & _ & Hp & Hv & Hq).
  destruct (calculator_keeps_table _ _ _ Hcalc Hc) as (Hidx' & _ & Hcols).
  assert (Hin : d ∈ index df').
  { rewrite Hidx'. by eapply list_elem_of_lookup_2. }
  assert (Hrow : df_row (t_primary t) i
                 = Some (mkRow d (omap (fun col : list float => col !! i)
                                    (columns (t_primary t))))).
  { unfold df_row. by rewrite Hidx, Hd. }
  eexists. split; [exact Hrow|]. split; [done|]. split; [|split].
  - intros col Hcol. rewrite (df_row_values _ _ _ _ Hrow), Hp.
    assert (Hwin : forall c, c ∈ windowed_columns -> is_Some (cell df' i c)).
    { intros c Hcw. destruct (Hcols c Hcw) as (vs & Hvs & Hl).
      unfold cell. rewrite Hvs. simpl. apply lookup_lt_is_Some.
      rewrite Hl, Hlen. by apply lookup_lt_Some in Hd. }
    unfold consumed_fields in Hcol.
    repeat (apply elem_of_cons in Hcol as [->|Hcol]);
      [..|by apply elem_of_nil in Hcol].
    1-3,7: rewrite !cell_set_col_series_ne by done; apply Hwin;
      unfold windowed_columns;
      repeat first [apply list_elem_of_here | apply list_elem_of_further].
    + rewrite !cell_set_col_series_ne by done.
      erewrite cell_set_col_series_eq; [done|by rewrite Hidx'].
    + rewrite !cell_set_col_series_ne by done.
      erewrite cell_set_col_series_eq;
        [done|by rewrite !index_set_col_series, Hidx'].
    + erewrite cell_set_col_series_eq;
        [done|by rewrite !index_set_col_series, Hidx'].
  - rewrite Hv. apply series_lookup_is_Some. by rewrite aligned_labels.
  - rewrite Hq. apply series_lookup_is_Some. by rewrite aligned_labels.
Qed.

End PipelineRowFacts.

Lemma pipeline_rows_have_every_field_witness :
  exists t row,
    build_tables three_day_data = Some t /\
    df_row (t_primary t) 0 = Some row /\ name row = 1 /\
    (forall col, col ∈ consumed_fields -> is_Some (values row !! col)) /\
    is_Some (series_lookup (t_vix t) 1) /\
    is_Some (series_lookup (t_pcr t) 1).
Proof.
  assert (exists t, build_tables three_day_data = Some t) as [t Hrun]
    by (vm_compute; eexists; reflexivity).
  destruct (pipeline_rows_have_every_field three_day_data t [100; 101; 102]%float
              0 1 Hrun)
    as (row & Hrow); [vm_compute; reflexivity..|].
  exists t, row. split; [exact Hrun|]. exact Hrow.
Defined.

(** ** The breadth proxy in the score *)

Section BreadthScoreFacts.

Context `{Numerics}.
Local Open Scope float_scope.

(** X8: every value of the breadth proxy is 0 or 100, never NaN, and the
    score moves by exactly 7.5 on it, down at 0 and up at 100: the linear
    branch of the breadth rule is out of reach of a computed proxy value. *)
Theorem breadth_proxy_two_valued (df df' : DataFrame) (proxy : list float) :
  calculate_market_breadth df = Some df' ->
  df_col df' "Breadth_Proxy" = Some proxy ->
  forall i b, proxy !! i = Some b ->
    (b = 0 /\ forall score, score_breadth score b = score - 7.5) \/
    (b = 100 /\ forall score, score_breadth score b = score + 7.5).
Proof.
  unfold calculate_market_breadth. intros Hrun Hp i b Hb.
  destruct (df_col df "Close") as [closes|]; [|done].
  simpl in Hrun. injection Hrun as <-.
  rewrite df_col_set_col_eq in Hp. injection Hp as <-.
  rewrite lookup_zip_with in Hb.
  destruct (closes !! i) as [c|]; [|done]. simpl in Hb.
  destruct (rolling_mean 50 closes !! i) as [m|]; [|done]. simpl in Hb.
  injection Hb as <-. unfold flag_times_100.
  destruct (c >? m); [right|left]; split; reflexivity.
Qed.

End BreadthScoreFacts.

Lemma breadth_proxy_two_valued_witness :
  exists df' proxy,
    calculate_market_breadth three_days = Some df' /\
    df_col df' "Breadth_Proxy" = Some proxy /\
    forall i b, proxy !! i = Some b ->
      (b = 0%float /\ forall score, score_breadth score b = (score - 7.5)%float) \/
      (b = 100%float /\ forall score, score_breadth score b = (score + 7.5)%float).
Proof.
  assert (exists df', calculate_market_breadth three_days = Some df') as [df' Hrun]
    by (vm_compute; eexists; reflexivity).
  assert (exists proxy, df_col df' "Breadth_Proxy" = Some proxy) as [proxy Hp].
  { unfold calculate_market_breadth in Hrun.
    destruct (df_col three_days "Close"); [|discriminate Hrun].
    simpl in Hrun. injection Hrun as <-. rewrite df_col_set_col_eq. by eexists. }
  exists df', proxy. split; [exact Hrun|]. split; [exact Hp|].
  exact (breadth_proxy_two_valued three_days df' proxy Hrun Hp).
Defined.

(** ** The list the detector returns *)

Section DetectorListFacts.

Local Open Scope float_scope.

Variable primary_df : DataFrame.
Variable vix_series : Series.
Variable pcr_series : Series.

Lemma rule_breadth_shape row risks r :
  rule_breadth primary_df row risks = Some r ->
  exists be : bool,
    r = risks ++ if be then [mkSignal BreadthExhaustion None medium] else [].
Proof.
  unfold rule_breadth. intros Hr.
  destruct (last (index primary_df)) as [latest|]; [|done]. simpl in Hr.
  destruct (Z.eqb (name row) latest).
  2:{ injection Hr as <-. exists false. by rewrite app_nil_r. }
  destruct (df_col primary_df "Close") as [closes|]; [|done]. simpl in Hr.
  destruct (df_col primary_df "Breadth") as [breadths|]; [|done]. simpl in Hr.
  destruct (row_item row "Close") as [close|]; [|done]. simpl in Hr.
  destruct (row_item row "Breadth") as [breadth|]; [|done]. simpl in Hr.
  destruct (_ && _); injection Hr as <-;
    [by exists true | exists false; by rewrite app_nil_r].
Qed.

Lemma rule_death_cross_shape row risks r :
  rule_death_cross primary_df row risks = Some r ->
  exists dc : bool,
    r = risks ++ if dc then [mkSignal DeathCross None high] else [].
Proof.
  unfold rule_death_cross. intros Hr.
  assert (Hno : Some risks = Some r -> exists dc : bool,
            r = risks ++ if dc then [mkSignal DeathCross None high] else []).
  { intros [= <-]. exists false. by rewrite app_nil_r. }
  destruct (row_has row "MA_50" && row_has row "MA_200"); [|by apply Hno].
  destruct (row_item row "MA_50") as [ma_50|]; [|done]. simpl in Hr.
  destruct (row_item row "MA_200") as [ma_200|]; [|done]. simpl in Hr.
  destruct (ma_50 <? ma_200); [|by apply Hno].
  destruct (get_loc (index primary_df) (name row)) as [loc|]; [|done].
  simpl in Hr.
  destruct (0 <? loc)%nat; [|by apply Hno].
  destruct (index primary_df !! (loc - 1)%nat) as [prev_idx|]; [|done].
  simpl in Hr.
  destruct (df_loc primary_df prev_idx "MA_50") as [prev_50|]; [|done].
  simpl in Hr.
  destruct (df_loc primary_df prev_idx "MA_200") as [prev_200|]; [|done].
  simpl in Hr.
  destruct (prev_50 >=? prev_200); [|by apply Hno].
  injection Hr as <-. by exists true.
Qed.

(** Whatever the row and the table, a returned list is made of the five
    contributions in the order of the rules. *)
Lemma identify_risk_signals_shape row risks :
  identify_risk_signals primary_df vix_series pcr_series row = Some risks ->
  exists be dc : bool,
    risks = rule_volatility vix_series row []
            ++ (if be then [mkSignal BreadthExhaustion None medium] else [])
            ++ (if dc then [mkSignal DeathCross None high] else [])
            ++ rule_pcr pcr_series row []
            ++ rule_deviation row [].
Proof.
  unfold identify_risk_signals. intros Hr.
  destruct (rule_breadth primary_df row _) as [r1|] eqn:H1; [|done].
  simpl in Hr.
  destruct (rule_death_cross primary_df row r1) as [r2|] eqn:H2; [|done].
  simpl in Hr. injection Hr as <-.
  apply rule_breadth_shape in H1 as [be ->].
  apply rule_death_cross_shape in H2 as [dc ->].
  exists be, dc.
  rewrite rule_deviation_app, rule_pcr_app. by rewrite <- !app_assoc.
Qed.

Local Ltac all_rule_cases :=
  unfold rule_volatility, rule_pcr, rule_deviation;
  repeat match goal with
         | |- context [if ?c then _ else _] => destruct c eqn:?
         end.

(** X9: a returned list holds its signals in the order of the rules, at
    most one per rule and so at most five; the two volatility signals never
    come together, nor the two sentiment signals, nor the two deviation
    signals. *)
Theorem detector_signals_in_rule_order (row : Row) (risks : list RiskSignal) :
  identify_risk_signals primary_df vix_series pcr_series row = Some risks ->
  sublist (title <$> risks) rule_order /\
  (length risks <= 5)%nat /\
  emits ExtremeVolatility risks && emits ElevatedVolatility risks = false /\
  emits ExtremeBearish risks && emits ExtremeBullish risks = false /\
  emits SevereOverbought risks && emits SevereOversold risks = false.
Proof.
  intros (be & dc & ->)%identify_risk_signals_shape.
  all_rule_cases; simpl; repeat split; try reflexivity; try lia;
    unfold rule_order;
    repeat first [apply sublist_nil | apply sublist_skip | apply sublist_cons].
Qed.

Lemma gtb_35_vix_rule v : (v >? 35) = true -> forall s, score_vix s v = s - 10.
Proof.
  unfold gtb. intros Hv s. unfold score_vix, gtb.
  destruct (v <? 16) eqn:Hlo.
  { by pose proof (ltb_trans _ _ _ Hv Hlo). }
  by rewrite (ltb_trans 30 35 v eq_refl Hv).
Qed.

Lemma gtb_13_pcr_rule v : (v >? 1.3) = true -> forall s, score_pcr s v = s + 5.
Proof.
  unfold gtb. intros Hv s. unfold score_pcr, gtb.
  destruct (v <? 0.8) eqn:Hlo.
  { by pose proof (ltb_trans _ _ _ Hv Hlo). }
  by rewrite (ltb_trans 1.2 1.3 v eq_refl Hv).
Qed.

Lemma ltb_06_pcr_rule v : (v <? 0.6) = true -> forall s, score_pcr s v = s - 5.
Proof.
  intros Hv s. unfold score_pcr.
  by rewrite (ltb_trans v 0.6 0.8 Hv eq_refl).
Qed.

(** X10: the detector and the score agree at the extremes: when the list
    holds the extreme-volatility signal the volatility rule of the score
    took 10 off; with the extreme-bearish signal the put/call rule added 5,
    with the extreme-bullish one it took 5 off. *)
Theorem extreme_signals_match_score_rules (row : Row) (risks : list RiskSignal) :
  identify_risk_signals primary_df vix_series pcr_series row = Some risks ->
  (emits ExtremeVolatility risks = true ->
   forall s, score_vix s (vix_val vix_series row) = s - 10) /\
  (emits ExtremeBearish risks = true ->
   forall s, score_pcr s (pcr_val pcr_series row) = s + 5) /\
  (emits ExtremeBullish risks = true ->
   forall s, score_pcr s (pcr_val pcr_series row) = s - 5).
Proof.
  intros (be & dc & ->)%identify_risk_signals_shape.
  unfold vix_val, pcr_val.
  repeat split; intros Hem;
    [apply gtb_35_vix_rule | apply gtb_13_pcr_rule | apply ltb_06_pcr_rule];
    revert Hem; all_rule_cases; simpl; try discriminate; done.
Qed.

(** X11: a NaN keeps the detector quiet where it drives the score to 100:
    with a NaN volatility value the list holds no volatility signal, with a
    NaN put/call estimate no sentiment signal, with a NaN deviation from the
    200-day average no deviation signal. *)
Theorem nan_inputs_emit_nothing (row : Row) (risks : list RiskSignal) :
  identify_risk_signals primary_df vix_series pcr_series row = Some risks ->
  (isnan (vix_val vix_series row) = true ->
   emits ExtremeVolatility risks = false /\ emits ElevatedVolatility risks = false) /\
  (isnan (pcr_val pcr_series row) = true ->
   emits ExtremeBearish risks = false /\ emits ExtremeBullish risks = false) /\
  (isnan (row_get row "Dev_200" 0) = true ->
   emits SevereOverbought risks = false /\ emits SevereOversold risks = false).
Proof.
  intros (be & dc & ->)%identify_risk_signals_shape.
  unfold vix_val, pcr_val.
  repeat match goal with
         | |- _ /\ _ => split
         | |- isnan _ = true -> _ => intros Hnan%isnan_eq
         end;
    unfold rule_volatility, rule_pcr, rule_deviation; rewrite Hnan;
    unfold gtb; rewrite ?ltb_nan_l, ?ltb_nan_r;
    rewrite !emits_app; destruct be, dc; simpl;
    repeat match goal with
           | |- context [if ?c then _ else _] => destruct c
           end; reflexivity.
Qed.

End DetectorListFacts.

Lemma detector_signals_in_rule_order_witness :
  exists risks,
    identify_risk_signals scenario_days stressed_vix bearish_pcr scenario_last_row
    = Some risks /\
    sublist (title <$> risks) rule_order /\ (length risks <= 5)%nat.
Proof.
  assert (exists risks,
            identify_risk_signals scenario_days stressed_vix bearish_pcr
              scenario_last_row = Some risks) as [risks Hrun]
    by (vm_compute; eexists; reflexivity).
  destruct (detector_signals_in_rule_order scenario_days stressed_vix bearish_pcr
              scenario_last_row risks Hrun) as (Hsub & Hlen & _).
  exists risks. split; [exact Hrun|]. split; [exact Hsub|exact Hlen].
Defined.

Lemma extreme_signals_match_score_rules_witness :
  exists risks,
    identify_risk_signals scenario_days stressed_vix bearish_pcr scenario_last_row
    = Some risks /\
    emits ExtremeVolatility risks = true /\
    forall s, score_vix s (vix_val stressed_vix scenario_last_row) = (s - 10)%float.
Proof.
  assert (exists risks,
            identify_risk_signals scenario_days stressed_vix bearish_pcr
              scenario_last_row = Some risks /\
            emits ExtremeVolatility risks = true) as (risks & Hrun & Hem)
    by (vm_compute; eexists; split; reflexivity).
  destruct (extreme_signals_match_score_rules scenario_days stressed_vix
              bearish_pcr scenario_last_row risks Hrun) as (Hvix & _).
  exists risks. split; [exact Hrun|]. split; [exact Hem|]. exact (Hvix Hem).
Defined.

Lemma nan_inputs_emit_nothing_witness :
  exists risks,
    identify_risk_signals scenario_days undefined_on_day_20 undefined_on_day_20
      scenario_last_row = Some risks /\
    emits ExtremeVolatility risks = false /\ emits ElevatedVolatility risks = false.
Proof.
  assert (exists risks,
            identify_risk_signals scenario_days undefined_on_day_20
              undefined_on_day_20 scenario_last_row = Some risks)
    as [risks Hrun] by (vm_compute; eexists; reflexivity).
  destruct (nan_inputs_emit_nothing scenario_days undefined_on_day_20
              undefined_on_day_20 scenario_last_row risks Hrun) as (Hvix & _).
  exists risks. split; [exact Hrun|]. apply Hvix. reflexivity.
Defined.

(** ** Where the detector fails *)

Section DetectorErrorFacts.

Local Open Scope float_scope.

Variable primary_df : DataFrame.
Variable vix_series : Series.
Variable pcr_series : Series.

(** X12: on a table without rows the detector fails for every row: it asks
    for the last label of the index before anything else of rule 2. *)
Theorem detector_fails_on_empty_table (row : Row) :
  index primary_df = [] ->
  identify_risk_signals primary_df vix_series pcr_series row = None.
Proof.
  intros Hidx. unfold identify_risk_signals, rule_breadth. by rewrite Hidx.
Qed.

Lemma get_loc_absent idx d : d ∉ idx -> get_loc idx d = None.
Proof.
  intros Hd. unfold get_loc. rewrite count_label_absent; [done|].
  intros k b Hk ->. apply Hd. by eapply list_elem_of_lookup_2.
Qed.

(** X13: for a row without the moving averages, and a table with rows, the
    detector returns unless the row bears the last label of the index; for
    such a row it returns exactly when the table has the columns Close and
    Breadth and the row has both fields. *)
Theorem detector_latest_row_needs_close_and_breadth (row : Row) (latest : Z) :
  last (index primary_df) = Some latest ->
  values row !! "MA_50" = None ->
  is_Some (identify_risk_signals primary_df vix_series pcr_series row) <->
  (name row = latest ->
   is_Some (df_col primary_df "Close") /\ is_Some (df_col primary_df "Breadth") /\
   is_Some (values row !! "Close") /\ is_Some (values row !! "Breadth")).
Proof.
  intros Hlast Hma. unfold identify_risk_signals, rule_breadth.
  rewrite Hlast. simpl.
  assert (Hdc : forall r, rule_death_cross primary_df row r = Some r).
  { intros r. unfold rule_death_cross, row_has. by rewrite Hma. }
  destruct (Z.eqb_spec (name row) latest) as [Heq|Hne].
  2:{ simpl. rewrite Hdc. simpl. split; [done|]. intros _. by eexists. }
  unfold row_item.
  destruct (df_col primary_df "Close") as [closes|]; simpl.
  2:{ split; [by intros [? ?]|]. intros Hall. by destruct (Hall Heq) as ([? ?] & _). }
  destruct (df_col primary_df "Breadth") as [breadths|]; simpl.
  2:{ split; [by intros [? ?]|].
      intros Hall. by destruct (Hall Heq) as (_ & [? ?] & _). }
  destruct (values row !! "Close") as [close|]; simpl.
  2:{ split; [by intros [? ?]|].
      intros Hall. by destruct (Hall Heq) as (_ & _ & [? ?] & _). }
  destruct (values row !! "Breadth") as [breadth|]; simpl.
  2:{ split; [by intros [? ?]|].
      intros Hall. by destruct (Hall Heq) as (_ & _ & _ & [? ?]). }
  destruct (_ && _); simpl; rewrite Hdc; simpl;
    (split; [intros _ _; repeat split; by eexists | intros _; by eexists]).
Qed.

(** X14: rule 3 looks the row's label up in the index of the table: for a
    row with [ma_50 < ma_200] whose label is not in the index (a row of
    another table) the detector fails with the [KeyError] of that lookup. *)
Theorem death_cross_needs_label_in_index (row : Row) (ma_50 ma_200 : float) :
  values row !! "MA_50" = Some ma_50 ->
  values row !! "MA_200" = Some ma_200 ->
  (ma_50 <? ma_200) = true ->
  name row ∉ index primary_df ->
  identify_risk_signals primary_df vix_series pcr_series row = None.
Proof.
  intros H50 H200 Hlt Hname. unfold identify_risk_signals.
  destruct (rule_breadth primary_df row _) as [r|]; [|done]. simpl.
  unfold rule_death_cross, row_has, row_item. rewrite H50, H200. simpl.
  rewrite Hlt. by rewrite (get_loc_absent _ _ Hname).
Qed.

End DetectorErrorFacts.

Lemma detector_fails_on_empty_table_witness :
  identify_risk_signals (mkFrame [] ∅) [] [] scenario_last_row = None.
Proof.
  apply (detector_fails_on_empty_table (mkFrame [] ∅) [] [] scenario_last_row).
  reflexivity.
Defined.

Lemma detector_latest_row_needs_close_and_breadth_witness :
  is_Some (identify_risk_signals three_days [] [] (mkRow 3 ∅)) <->
  (3 = 3 ->
   is_Some (df_col three_days "Close") /\ is_Some (df_col three_days "Breadth") /\
   is_Some ((∅ : gmap string float) !! "Close") /\
   is_Some ((∅ : gmap string float) !! "Breadth")).
Proof.
  apply (detector_latest_row_needs_close_and_breadth three_days [] [] (mkRow 3 ∅) 3);
    reflexivity.
Defined.

Lemma death_cross_needs_label_in_index_witness :
  identify_risk_signals scenario_days [] [] foreign_row = None.
Proof.
  apply (death_cross_needs_label_in_index scenario_days [] [] foreign_row
           9%float 9.5%float); try (vm_compute; reflexivity).
  vm_compute. intros Hin.
  repeat (apply elem_of_cons in Hin as [Hin|Hin]; [discriminate Hin|]).
  by apply elem_of_nil in Hin.
Defined.

(** ** The detector on a short table *)

Section ShortTableDetectorFacts.

Context `{Numerics}.
Local Open Scope float_scope.

Lemma df_col_set_col_series_ne df col col' s :
  col <> col' -> df_col (set_col_series df col s) col' = df_col df col'.
Proof. intros. unfold set_col_series. by apply df_col_set_col_ne. Qed.

(** The columns of the table the detector reads, after a successful run. *)
Lemma with_scores_columns data t closes :
  build_tables data = Some t ->
  df_col (primary data) "Close" = Some closes ->
  exists df' breadths,
    calculate_technical_indicators (primary data) = Some df' /\
    index (with_scores t) = index (primary data) /\
    df_col (with_scores t) "Close" = Some closes /\
    df_col (with_scores t) "Breadth" = Some breadths /\
    length breadths = length (index (primary data)) /\
    forall i col, col ∈ windowed_columns ->
      cell (with_scores t) i col = cell df' i col.
Proof.
  intros Hrun Hc.
  pose proof (build_tables_index _ _ Hrun) as Hidx.
  destruct (build_tables_inv _ _ Hrun)
    as (df' & breadth & spread & vix_close & pcr & Hcalc & _ & _ & Hp & _ & _).
  destruct (calculator_keeps_table _ _ _ Hcalc Hc) as (Hidx' & Hkeep & _).
  exists df', (map (observed breadth) (index df')).
  split; [done|]. split; [done|]. unfold with_scores. rewrite Hp.
  split; [|split; [|split]].
  - rewrite df_col_set_col_ne, !df_col_set_col_series_ne by done.
    rewrite Hkeep; [done|]. unfold derived_columns. intros Hin.
    repeat (apply elem_of_cons in Hin as [Hin|Hin]; [discriminate Hin|]).
    by apply elem_of_nil in Hin.
  - rewrite df_col_set_col_ne, !df_col_set_col_series_ne by done.
    unfold set_col_series. by rewrite df_col_set_col_eq.
  - by rewrite length_map, Hidx'.
  - intros i col Hcol. unfold windowed_columns in Hcol.
    repeat (apply elem_of_cons in Hcol as [->|Hcol]);
      [..|by apply elem_of_nil in Hcol];
      by rewrite cell_set_col_ne, !cell_set_col_series_ne by done.
Qed.

(** X15: on a computed table of fewer than 200 rows, as every lookback of
    the application gives, the 200-day average is undefined on every row;
    the detector returns on every row of the table, and its list never holds
    the death cross nor either deviation signal. *)
Theorem short_table_never_signals_cross
    (data : MarketData) (t : Tables) (closes : list float) (i : nat) (row : Row) :
  build_tables data = Some t ->
  df_col (primary data) "Close" = Some closes ->
  length closes = length (index (primary data)) ->
  increasing (index (primary data)) = true ->
  (length (index (primary data)) < 200)%nat ->
  df_row (with_scores t) i = Some row ->
  exists risks,
    identify_risk_signals (with_scores t) (t_vix t) (t_pcr t) row = Some risks /\
    emits DeathCross risks = false /\
    emits SevereOverbought risks = false /\
    emits SevereOversold risks = false.
Proof.
  intros Hrun Hc Hlen Hinc Hshort Hrow.
  destruct (with_scores_columns _ _ _ Hrun Hc)
    as (df' & breadths & Hcalc & Hidx & Hclose & Hbreadth & Hlb & Hcells).
  pose proof (df_row_name _ _ _ Hrow) as Hname. rewrite Hidx in Hname.
  pose proof (lookup_lt_Some _ _ _ Hname) as Hi.
  destruct (lookup_lt_is_Some_2 closes i) as [c Hci]; [lia|].
  destruct (lookup_lt_is_Some_2 breadths i) as [b Hbi]; [lia|].
  assert (Hnan : cell (with_scores t) i "MA_200" = Some nan /\
                 cell (with_scores t) i "Dev_200" = Some nan).
  { destruct (df_col (primary data) "High") as [highs|] eqn:Hh.
    2:{ assert (calculate_technical_indicators (primary data) = None) as Hn
          by (apply price_columns_needed; auto).
        congruence. }
    destruct (df_col (primary data) "Low") as [lows|] eqn:Hl.
    2:{ assert (calculate_technical_indicators (primary data) = None) as Hn
          by (apply price_columns_needed; auto).
        congruence. }
    destruct (calculate_technical_indicators_short _ _ _ _ Hc Hh Hl)
      as (df'' & Hcalc' & _ & Hshortcells).
    rewrite Hcalc in Hcalc'. injection Hcalc' as <-.
    destruct (Hshortcells i c Hci) as (_ & _ & H200 & _).
    rewrite !Hcells;
      [apply H200; lia|unfold windowed_columns;
       repeat first [apply list_elem_of_here | apply list_elem_of_further]..]. }
  destruct Hnan as [Hma Hdev].
  eexists. split.
  { apply (identify_risk_signals_spec _ _ _ i row closes breadths c b);
      try done. by rewrite Hidx. }
  assert (Hdc : death_cross_at (with_scores t) i = false).
  { unfold death_cross_at. rewrite Hma.
    destruct (cell (with_scores t) i "MA_50"); [|done].
    by rewrite ltb_nan_r. }
  assert (Hrd : rule_deviation row [] = []).
  { unfold rule_deviation, row_get.
    rewrite (df_row_values _ _ _ _ Hrow), Hdev. simpl.
    unfold gtb. by rewrite ?ltb_nan_l, ?ltb_nan_r. }
  rewrite Hdc, Hrd, !emits_app.
  unfold rule_volatility, rule_pcr.
  repeat match goal with
         | |- context [if ?c then _ else _] => destruct c
         end; done.
Qed.

End ShortTableDetectorFacts.

Lemma df_row_is_Some df i :
  (i < length (index df))%nat -> is_Some (df_row df i).
Proof.
  intros Hi. unfold df_row.
  destruct (lookup_lt_is_Some_2 (index df) i Hi) as [d ->]. by eexists.
Qed.

Lemma short_table_never_signals_cross_witness :
  exists t row risks,
    build_tables three_day_data = Some t /\
    df_row (with_scores t) 2 = Some row /\
    identify_risk_signals (with_scores t) (t_vix t) (t_pcr t) row = Some risks /\
    emits DeathCross risks = false /\
    emits SevereOverbought risks = false /\
    emits SevereOversold risks = false.
Proof.
  assert (exists t, build_tables three_day_data = Some t) as [t Hrun]
    by (vm_compute; eexists; reflexivity).
  destruct (df_row_is_Some (with_scores t) 2) as [row Hrow].
  { unfold with_scores. simpl. rewrite (build_tables_index _ _ Hrun). simpl. lia. }
  destruct (short_table_never_signals_cross three_day_data t
              [100; 101; 102]%float 2 row Hrun) as (risks & Hres);
    [reflexivity|reflexivity|reflexivity|simpl; lia|exact Hrow|].
  exists t, row, risks. split; [exact Hrun|]. split; [exact Hrow|]. exact Hres.
Defined.

(** ** The recent high of rule 2 *)

Section RecentHighFacts.

Local Open Scope float_scope.

Lemma SFcompare_swap (a b : spec_float) :
  SFcompare b a = CompOpp <$> SFcompare a b.
Proof.
  destruct a as [[]|[]| |[] m1 e1], b as [[]|[]| |[] m2 e2]; simpl;
    try reflexivity;
    rewrite (Zcompare_core_antisym e2 e1), (Pcompare_core_antisym m2 m1);
    destruct (IntDef.Z.compare e2 e1); simpl; try reflexivity;
    destruct (PosDef.Pos.compare_cont Eq m2 m1); reflexivity.
Qed.

Lemma Prim2SF_not_nan x : isnan x = false -> Prim2SF x <> S754_nan.
Proof.
  intros Hx He. assert (x = nan) as -> by (apply Prim2SF_inj; by rewrite He).
  discriminate Hx.
Qed.

Lemma SFcompare_defined (a b : spec_float) :
  a <> S754_nan -> b <> S754_nan -> is_Some (SFcompare a b).
Proof. destruct a, b; simpl; try done; intros; by eexists. Qed.

Lemma leb_refl x : isnan x = false -> (x <=? x) = true.
Proof.
  intros Hx%Prim2SF_not_nan. rewrite FloatAxioms.leb_spec. unfold SFleb.
  by rewrite SFcompare_refl_not_nan.
Qed.

(** Two numbers are comparable: when [a < x] fails, [x <= a] holds. *)
Lemma ltb_false_leb a x :
  isnan a = false -> isnan x = false -> (a <? x) = false -> (x <=? a) = true.
Proof.
  intros Ha%Prim2SF_not_nan Hx%Prim2SF_not_nan.
  rewrite FloatAxioms.ltb_spec, FloatAxioms.leb_spec. unfold SFltb, SFleb.
  rewrite (SFcompare_swap (Prim2SF a) (Prim2SF x)).
  destruct (SFcompare_defined _ _ Ha Hx) as [c ->]. by destruct c.
Qed.

Lemma SFleb_trans (x y z : spec_float) :
  SFleb x y = true -> SFleb y z = true -> SFleb x z = true.
Proof.
  unfold SFleb.
  destruct x as [[]|[]| |[] m1 e1], y as [[]|[]| |[] m2 e2],
           z as [[]|[]| |[] m3 e3];
    simpl; try discriminate; try reflexivity;
    change IntDef.Z.compare with Z.compare;
    change (PosDef.Pos.compare_cont Eq) with Pos.compare;
    destruct (Z.compare_spec e1 e2); try discriminate;
    destruct (Z.compare_spec e2 e3); try discriminate;
    destruct (Z.compare_spec e1 e3); try discriminate; try reflexivity;
    try lia; subst;
    destruct (Pos.compare_spec m1 m2); try discriminate;
    destruct (Pos.compare_spec m2 m3); try discriminate;
    destruct (Pos.compare_spec m1 m3); try discriminate; try reflexivity;
    simpl; intros; try lia; try discriminate.
Qed.

Lemma leb_trans x y z : (x <=? y) = true -> (y <=? z) = true -> (x <=? z) = true.
Proof. rewrite !FloatAxioms.leb_spec. apply SFleb_trans. Qed.

Lemma series_max_fold xs : series_max xs = fold_left max_step xs nan.
Proof. reflexivity. Qed.

Lemma max_step_defined acc x :
  isnan acc = false -> isnan (max_step acc x) = false /\ (acc <=? max_step acc x) = true.
Proof.
  intros Ha. unfold max_step. destruct (isnan x) eqn:Hx.
  { split; [done|by apply leb_refl]. }
  rewrite Ha. destruct (acc <? x) eqn:Hlt.
  - split; [done|by apply ltb_leb].
  - split; [done|by apply leb_refl].
Qed.

Lemma max_step_covers acc x :
  isnan x = false -> isnan (max_step acc x) = false /\ (x <=? max_step acc x) = true.
Proof.
  intros Hx. unfold max_step. rewrite Hx. destruct (isnan acc) eqn:Ha.
  { split; [done|by apply leb_refl]. }
  destruct (acc <? x) eqn:Hlt.
  - split; [done|by apply leb_refl].
  - split; [done|by apply ltb_false_leb].
Qed.

Lemma fold_max_above_start xs acc :
  isnan acc = false ->
  isnan (fold_left max_step xs acc) = false /\
  (acc <=? fold_left max_step xs acc) = true.
Proof.
  revert acc. induction xs as [|y xs IH]; intros acc Ha; simpl.
  { split; [done|by apply leb_refl]. }
  destruct (max_step_defined acc y Ha) as [Hd Hle].
  destruct (IH _ Hd) as [Hd' Hle']. split; [done|]. by eapply leb_trans.
Qed.

Lemma fold_max_above_elements xs acc x :
  x ∈ xs -> isnan x = false -> (x <=? fold_left max_step xs acc) = true.
Proof.
  revert acc. induction xs as [|y xs IH]; intros acc Hin Hx;
    [by apply elem_of_nil in Hin|].
  simpl. apply elem_of_cons in Hin as [->|Hin]; [|by apply IH].
  destruct (max_step_covers acc y Hx) as [Hd Hle].
  destruct (fold_max_above_start xs _ Hd) as [_ Hle']. by eapply leb_trans.
Qed.

Lemma fold_max_is_start_or_element xs acc :
  fold_left max_step xs acc = acc \/ fold_left max_step xs acc ∈ xs.
Proof.
  revert acc. induction xs as [|y xs IH]; intros acc; simpl; [by left|].
  destruct (IH (max_step acc y)) as [Heq|Hin].
  - rewrite Heq. unfold max_step. repeat case_match; auto; right; by left.
  - right. by right.
Qed.

(** X16: the recent high of rule 2 is a true maximum of the last 20 closes:
    it is at least every close among them that is not NaN, it is one of
    them unless it is NaN, and on the latest row it is at least the close of
    that row, so the first test of the rule compares the close with a value
    at or above it. *)
Theorem recent_high_bounds_latest_close (closes : list float) (i : nat) (close : float) :
  S i = length closes -> closes !! i = Some close -> isnan close = false ->
  (forall x, x ∈ tail 20 closes -> isnan x = false ->
     (x <=? series_max (tail 20 closes)) = true) /\
  series_max (tail 20 closes) ∈ tail 20 closes /\
  (close <=? series_max (tail 20 closes)) = true.
Proof.
  intros Hlen Hi Hc.
  assert (Hin : close ∈ tail 20 closes).
  { pose proof (last_tail 20 closes i close) as Hl.
    rewrite last_lookup in Hl. eapply list_elem_of_lookup_2. apply Hl; [lia|done|done]. }
  assert (Hall : forall x, x ∈ tail 20 closes -> isnan x = false ->
                   (x <=? series_max (tail 20 closes)) = true).
  { intros x Hx Hn. rewrite series_max_fold. by apply fold_max_above_elements. }
  split; [done|]. split; [|by apply Hall].
  rewrite series_max_fold.
  destruct (fold_max_is_start_or_element (tail 20 closes) nan) as [Heq|Hel]; [|done].
  pose proof (Hall close Hin Hc) as Hle. rewrite series_max_fold, Heq in Hle.
  by rewrite leb_nan_r in Hle.
Qed.

End RecentHighFacts.

Lemma recent_high_bounds_latest_close_witness :
  (199 <=? series_max (tail 20 (replicate 19 200 ++ [199])))%float = true.
Proof.
  apply (recent_high_bounds_latest_close (replicate 19 200 ++ [199])%float 19
           199%float); reflexivity.
Defined.

(** ** The top cards *)

Section TopCardFacts.

Context `{Numerics}.
Local Open Scope float_scope.

Lemma omap_total_lookup {A B} (g : A -> option B) (l : list A) j :
  (forall x, x ∈ l -> is_Some (g x)) -> omap g l !! j = l !! j ≫= g.
Proof.
  revert j. induction l as [|x l IH]; intros j Hg; [done|]. simpl.
  destruct (Hg x) as [y Hy]; [by left|]. rewrite Hy. simpl.
  destruct j as [|j]; simpl; [done|].
  apply IH. intros x' Hx'. apply Hg. by right.
Qed.

Lemma df_apply_lookup {A} (f : Row -> A) df j row :
  df_row df j = Some row -> df_apply f df !! j = Some (f row).
Proof.
  intros Hrow. unfold df_apply. rewrite omap_total_lookup.
  - assert (j < length (index df))%nat as Hj.
    { unfold df_row in Hrow. destruct (index df !! j) eqn:Hd; [|done].
      by apply lookup_lt_Some in Hd. }
    rewrite lookup_seq_lt by done. simpl. by rewrite Hrow.
  - intros i Hi%elem_of_seq.
    destruct (df_row_is_Some df i) as [r ->]; [lia|]. by eexists.
Qed.

Lemma iloc_back_row df k :
  (0 < k)%nat -> (k <= length (index df))%nat ->
  iloc_back df k = df_row df (length (index df) - k).
Proof.
  intros Hk Hl. unfold iloc_back.
  apply Nat.ltb_lt in Hk. apply Nat.leb_le in Hl. by rewrite Hk, Hl.
Qed.

Lemma iloc_back_short df k :
  (length (index df) < k)%nat -> iloc_back df k = None.
Proof.
  intros Hl. unfold iloc_back.
  assert ((k <=? length (index df))%nat = false) as -> by (apply Nat.leb_gt; lia).
  by rewrite andb_false_r.
Qed.

(** X17: a table with a single row passes the gate of [fetch_all_data] and
    every computation, yet the top cards fail on it: the score change asks
    for the row before the last.  With fewer than two rows there are no
    figures. *)
Theorem top_metrics_need_two_rows (data : MarketData) (t : Tables) :
  build_tables data = Some t ->
  (length (index (primary data)) < 2)%nat ->
  top_metrics t = None.
Proof.
  intros Hrun Hlen. unfold top_metrics.
  assert (Hidx : index (with_scores t) = index (primary data))
    by (unfold with_scores; simpl; by apply build_tables_index).
  rewrite (iloc_back_short (with_scores t) 2) by (rewrite Hidx; lia).
  destruct (iloc_back (with_scores t) 1) as [latest|]; [|done]. simpl.
  by destruct (row_item latest "Composite_Score").
Qed.

(** X18: on a computed table of at least two and fewer than 200 rows, as
    every lookback of the application gives, the top cards show a latest
    score of 100 and a score change of 0, whatever the prices: both rows
    carry an undefined deviation from the 200-day average. *)
Theorem top_metrics_of_short_table
    (data : MarketData) (t : Tables) (closes : list float) :
  build_tables data = Some t ->
  df_col (primary data) "Close" = Some closes ->
  length closes = length (index (primary data)) ->
  (2 <= length (index (primary data)) < 200)%nat ->
  exists close vix_val,
    top_metrics t = Some (100, 0, close, vix_val) /\ last closes = Some close.
Proof.
  intros Hrun Hc Hlen Hrows.
  pose proof (build_tables_index _ _ Hrun) as Hidxp.
  assert (Hidx : index (with_scores t) = index (primary data))
    by (unfold with_scores; simpl; done).
  set (n := length (index (primary data))) in *.
  assert (Hscore : forall j, (j < n)%nat ->
            cell (with_scores t) j "Composite_Score" = Some 100).
  { intros j Hj.
    destruct (lookup_lt_is_Some_2 closes j) as [c Hcj]; [lia|].
    destruct (lookup_lt_is_Some_2 (index (primary data)) j) as [d Hd]; [done|].
    destruct (short_history_scores_100 data t closes j c d Hrun Hc Hcj Hd)
      as (row & Hrow & _ & H100); [lia|].
    unfold with_scores. rewrite cell_set_col_eq. unfold composite_scores.
    by rewrite (df_apply_lookup _ _ j row Hrow), H100. }
  destruct (with_scores_columns _ _ _ Hrun Hc)
    as (df' & breadths & _ & _ & Hclose & _).
  destruct (lookup_lt_is_Some_2 closes (n - 1)) as [close Hlast]; [lia|].
  destruct (build_tables_inv _ _ Hrun)
    as (df0 & breadth & spread & vix_close & pcr & Hcalc & _ & _ & _ & Hv & _).
  destruct (calculator_keeps_table _ _ _ Hcalc Hc) as (Hidx0 & _ & _).
  assert (Hvix : is_Some (last (t_vix t).*2)).
  { rewrite last_lookup. apply lookup_lt_is_Some.
    assert (length (t_vix t).*2 = n) as ->; [|lia].
    rewrite length_fmap, <- (length_fmap fst), Hv, aligned_labels.
    by rewrite Hidx0. }
  destruct Hvix as [vix_val Hvix].
  exists close, vix_val. split.
  - unfold top_metrics.
    rewrite !iloc_back_row by (rewrite ?Hidx; lia). rewrite Hidx. fold n.
    destruct (df_row_is_Some (with_scores t) (n - 1)) as [latest Hl];
      [rewrite Hidx; fold n; lia|].
    destruct (df_row_is_Some (with_scores t) (n - 2)) as [previous Hp];
      [rewrite Hidx; fold n; lia|].
    rewrite Hl, Hp. simpl. unfold row_item.
    rewrite (df_row_values _ _ _ "Composite_Score" Hl),
      (df_row_values _ _ _ "Close" Hl),
      (df_row_values _ _ _ "Composite_Score" Hp).
    rewrite !Hscore by lia. simpl.
    unfold cell. rewrite Hclose. simpl. rewrite Hlast. simpl.
    by rewrite Hvix.
  - rewrite last_lookup. rewrite <- Hlast. f_equal. lia.
Qed.

End TopCardFacts.

(** The gate lets the tables of three days and of a single day through. *)
Example gate_passes_short_tables :
  fetch_all_data three_days calm_vix three_days three_days three_days
  = Some three_day_data /\
  fetch_all_data one_day (mkFrame [1] {[ "Close" := [18]%float ]}) one_day one_day
    one_day
  = Some one_day_data.
Proof. vm_compute. split; reflexivity. Qed.

Lemma top_metrics_need_two_rows_witness :
  exists t, build_tables one_day_data = Some t /\ top_metrics t = None.
Proof.
  assert (exists t, build_tables one_day_data = Some t) as [t Hrun]
    by (vm_compute; eexists; reflexivity).
  exists t. split; [exact Hrun|].
  apply (top_metrics_need_two_rows one_day_data t Hrun). simpl. lia.
Defined.

Lemma top_metrics_of_short_table_witness :
  exists t close vix_val,
    build_tables three_day_data = Some t /\
    top_metrics t = Some (100%float, 0%float, close, vix_val).
Proof.
  assert (exists t, build_tables three_day_data = Some t) as [t Hrun]
    by (vm_compute; eexists; reflexivity).
  destruct (top_metrics_of_short_table three_day_data t [100; 101; 102]%float Hrun)
    as (close & vix_val & Htop & _); [reflexivity|reflexivity|simpl; lia|].
  exists t, close, vix_val. split; [exact Hrun|exact Htop].
Defined.

(** ** The put/call estimate and the credit spread *)

Section ProxyLookbackFacts.

Context `{Numerics}.
Local Open Scope float_scope.

(** What the gate hands over. *)
Lemma fetch_all_data_result
    (ticker_data vix_data hyg_data tlt_data spy_data : DataFrame)
    (data : MarketData) (vix_closes : list float) :
  fetch_all_data ticker_data vix_data hyg_data tlt_data spy_data = Some data ->
  df_col vix_data "Close" = Some vix_closes ->
  primary data = ticker_data /\ vix data = vix_data /\
  index (pcr_estimate data) = index vix_data /\
  exists pcr,
    df_col (pcr_estimate data) "PCR_Estimate" = Some pcr /\
    length pcr = length vix_closes /\
    forall i, (i < 19)%nat -> (i < length vix_closes)%nat -> pcr !! i = Some nan.
Proof.
  unfold fetch_all_data. intros Hrun Hv.
  destruct (df_empty ticker_data); [done|]. rewrite Hv in Hrun. simpl in Hrun.
  injection Hrun as <-. simpl. repeat split.
  eexists. split; [unfold df_col; simpl; apply lookup_singleton_eq|]. split.
  - rewrite length_zip_with, rolling_mean_length. lia.
  - intros i Hi Hlen.
    destruct (lookup_lt_is_Some_2 vix_closes i Hlen) as [c Hc].
    rewrite lookup_zip_with, Hc. simpl.
    rewrite (rolling_mean_short 20 vix_closes i c Hc) by lia. simpl.
    by rewrite div_nan_r.
Qed.

(** X19: what passes the gate comes out unchanged, with the put/call
    estimate on the dates of the volatility table; the estimate is undefined
    (NaN) on the first 19 observations, where its 20-day mean is. *)
Theorem pcr_estimate_lookback
    (ticker_data vix_data hyg_data tlt_data spy_data : DataFrame)
    (data : MarketData) (vix_closes : list float) :
  fetch_all_data ticker_data vix_data hyg_data tlt_data spy_data = Some data ->
  df_col vix_data "Close" = Some vix_closes ->
  primary data = ticker_data /\ vix data = vix_data /\
  index (pcr_estimate data) = index vix_data /\
  exists pcr,
    df_col (pcr_estimate data) "PCR_Estimate" = Some pcr /\
    length pcr = length vix_closes /\
    forall i, (i < 19)%nat -> (i < length vix_closes)%nat -> pcr !! i = Some nan.
Proof. apply fetch_all_data_result. Qed.

Lemma raw_score_nan_pcr vix_series pcr_series row :
  pcr_val pcr_series row = nan -> raw_score vix_series pcr_series row = nan.
Proof.
  intros Hp. unfold raw_score. rewrite Hp.
  by rewrite score_pcr_nan_value, score_momentum_nan_score.
Qed.

(** X20: when the volatility table has the dates of the primary table, the
    first 19 rows of the computed table score 100 whatever their fields
    hold: the put/call estimate of those dates is NaN, nothing earlier can
    be carried forward, and the NaN reaches the sum. *)
Theorem first_rows_score_100
    (ticker_data vix_data hyg_data tlt_data spy_data : DataFrame)
    (data : MarketData) (t : Tables) (vix_closes : list float)
    (i : nat) (row : Row) :
  fetch_all_data ticker_data vix_data hyg_data tlt_data spy_data = Some data ->
  build_tables data = Some t ->
  df_col vix_data "Close" = Some vix_closes ->
  length vix_closes = length (index vix_data) ->
  index vix_data = index ticker_data ->
  increasing (index ticker_data) = true ->
  (i < 19)%nat ->
  df_row (t_primary t) i = Some row ->
  calculate_composite_score (t_vix t) (t_pcr t) row = 100.
Proof.
  intros Hfetch Hrun Hv Hlen Hsame Hinc Hi Hrow.
  destruct (fetch_all_data_result _ _ _ _ _ _ _ Hfetch Hv)
    as (Hprim & _ & Hpidx & pcr & Hpcr & Hplen & Hpnan).
  pose proof (build_tables_index _ _ Hrun) as Hidx. rewrite Hprim in Hidx.
  destruct (build_tables_inv _ _ Hrun)
    as (df' & ? & ? & ? & pcr_s & Hcalc & _ & Hps & _ & _ & Hq).
  assert (Hidx' : index df' = index ticker_data).
  { rewrite <- Hidx.
    destruct (build_tables_inv _ _ Hrun) as (df1 & ? & ? & ? & ? & Hc1 & _ & _ & -> & _).
    rewrite !index_set_col_series. congruence. }
  unfold col_series in Hps. rewrite Hpcr in Hps. simpl in Hps.
  injection Hps as <-. rewrite Hpidx, Hsame in Hq. rewrite Hidx' in Hq.
  pose proof (df_row_name _ _ _ Hrow) as Hname. rewrite Hidx in Hname.
  assert (Hobs : forall k dk, (k <= i)%nat -> index ticker_data !! k = Some dk ->
            observed (zip (index ticker_data) pcr) dk = nan).
  { intros k dk Hk Hdk. unfold observed.
    rewrite (series_lookup_zip _ pcr k dk Hinc Hdk) by congruence.
    rewrite (Hpnan k); [done|lia|].
    apply lookup_lt_Some in Hdk. rewrite <- Hsame, <- Hlen in Hdk. done. }
  assert (Hval : pcr_val (t_pcr t) row = nan).
  { unfold pcr_val, series_get. rewrite Hq.
    rewrite (aligned_lookup _ _ i (name row) Hinc Hname).
    rewrite ffill_from_all_nan; [done| |].
    - intros k v Hk Hkv. rewrite list_lookup_fmap in Hkv.
      destruct (index ticker_data !! k) as [dk|] eqn:Hdk; [|done].
      simpl in Hkv. injection Hkv as <-. by rewrite (Hobs k dk Hk Hdk).
    - rewrite length_map. by apply lookup_lt_Some in Hname. }
  unfold calculate_composite_score.
  by rewrite (raw_score_nan_pcr _ _ _ Hval).
Qed.

(** X21: the credit-spread series is undefined (NaN) on its first five
    dates, whatever the two price tables hold: the 5-day change has nothing
    to compare them with. *)
Theorem bond_spread_lookback (hyg_df tlt_df : DataFrame) (spread : Series) :
  calculate_bond_spread hyg_df tlt_df = Some spread ->
  forall i, (i < 5)%nat -> (i < length spread)%nat ->
    exists d, spread !! i = Some (d, nan).
Proof.
  unfold calculate_bond_spread. intros Hrun i Hi Hlen.
  destruct (col_series hyg_df "Close") as [hyg_close|]; [|done]. simpl in Hrun.
  destruct (col_series tlt_df "Close") as [tlt_close|]; [|done]. simpl in Hrun.
  injection Hrun as <-.
  set (ratio := series_div hyg_close tlt_close) in *.
  destruct (lookup_lt_is_Some_2 _ i Hlen) as [[d v] Hdv].
  exists d. enough (v = nan) as <- by exact Hdv.
  apply lookup_zip_Some in Hdv as [_ Hv].
  rewrite list_lookup_fmap in Hv.
  destruct (pct_change 5 ratio.*2 !! i) as [r|] eqn:Hr; [|done].
  assert (is_Some (ratio.*2 !! i)) as [x Hx].
  { apply lookup_lt_is_Some. rewrite <- (pct_change_length 5).
    by apply lookup_lt_Some in Hr. }
  rewrite (pct_change_lookback 5 _ i x Hx Hi) in Hr. injection Hr as <-.
  simpl in Hv. by injection Hv as <-.
Qed.

End ProxyLookbackFacts.

Lemma pcr_estimate_lookback_witness :
  exists pcr,
    df_col (pcr_estimate three_day_data) "PCR_Estimate" = Some pcr /\
    length pcr = 3%nat /\
    forall i, (i < 19)%nat -> (i < 3)%nat -> pcr !! i = Some nan.
Proof.
  destruct (pcr_estimate_lookback three_days calm_vix three_days three_days
              three_days three_day_data [18; 19; 20]%float)
    as (_ & _ & _ & Hpcr); [vm_compute; reflexivity|reflexivity|].
  exact Hpcr.
Defined.

Lemma first_rows_score_100_witness :
  exists t row,
    build_tables three_day_data = Some t /\
    df_row (t_primary t) 1 = Some row /\
    calculate_composite_score (t_vix t) (t_pcr t) row = 100%float.
Proof.
  assert (exists t, build_tables three_day_data = Some t) as [t Hrun]
    by (vm_compute; eexists; reflexivity).
  destruct (df_row_is_Some (t_primary t) 1) as [row Hrow].
  { rewrite (build_tables_index _ _ Hrun). simpl. lia. }
  exists t, row. split; [exact Hrun|]. split; [exact Hrow|].
  apply (first_rows_score_100 three_days calm_vix three_days three_days three_days
           three_day_data t [18; 19; 20]%float 1 row);
    [vm_compute; reflexivity|exact Hrun|reflexivity|reflexivity|reflexivity
    |reflexivity|lia|exact Hrow].
Defined.

Lemma bond_spread_lookback_witness :
  exists spread,
    calculate_bond_spread three_days three_days = Some spread /\
    forall i, (i < 5)%nat -> (i < length spread)%nat ->
      exists d, spread !! i = Some (d, nan).
Proof.
  assert (exists spread, calculate_bond_spread three_days three_days = Some spread)
    as [spread Hrun] by (vm_compute; eexists; reflexivity).
  exists spread. split; [exact Hrun|].
  exact (bond_spread_lookback three_days three_days spread Hrun).
Defined.

(** ** Alignment of a series that needs none *)

Section AlignmentRoundTrip.

Local Open Scope float_scope.

Lemma ffill_from_no_nan a vs :
  Forall (fun v => isnan v = false) vs -> ffill_from a vs = vs.
Proof.
  intros Hall. revert a. induction Hall as [|v vs Hv _ IH]; intros a; [done|].
  simpl. rewrite Hv. by rewrite IH.
Qed.

Lemma reindex_own_index (s : list (Z * float)) :
  increasing (s.*1) = true -> reindex s (s.*1) = s.
Proof.
  intros Hinc. apply list_eq. intros i. unfold reindex.
  rewrite list_lookup_fmap, list_lookup_fmap.
  destruct (s !! i) as [[d v]|] eqn:Hi; simpl; [|done].
  f_equal. f_equal. unfold observed.
  rewrite <- (zip_fst_snd s) at 1.
  rewrite (series_lookup_zip (s.*1) (s.*2) i d Hinc).
  - by rewrite list_lookup_fmap, Hi.
  - by rewrite list_lookup_fmap, Hi.
  - by rewrite !length_fmap.
Qed.

(** X22: alignment is the identity on a series that has exactly the primary
    dates and no NaN: reindexing finds every observation and the fill has
    nothing to fill. *)
Theorem alignment_of_complete_series (s : Series) :
  increasing (s.*1) = true ->
  Forall (fun v => isnan v = false) (s.*2) ->
  ffill (reindex s (s.*1)) = s.
Proof.
  intros Hinc Hall. rewrite (reindex_own_index s Hinc).
  unfold ffill, ffill_values. rewrite (ffill_from_no_nan _ _ Hall).
  apply zip_fst_snd.
Qed.

End AlignmentRoundTrip.

Lemma alignment_of_complete_series_witness :
  ffill (reindex [(1, 18%float); (2, 19%float)] [(1, 18%float); (2, 19%float)].*1)
  = [(1, 18%float); (2, 19%float)].
Proof.
  apply (alignment_of_complete_series [(1, 18%float); (2, 19%float)]);
    [reflexivity|].
  repeat constructor.
Defined.
